(** * Think Inside the Box: detector, styler and monitor

    A shallow embedding of the three content scripts of the extension
    (detector, styler, monitor) and the properties stated about them.

    Conventions.
    - JavaScript strings are [string]s; a character is one code unit below
      256, which covers every literal the scripts compare against.
    - The host page is a tree of [node]s.  The scripts only read host
      elements (text, markup, serialisation) and never change their content,
      so an [Element] carries those readings; the styler's own elements are
      structured values.  An element that is not in the page has no parent,
      no sibling and no ancestor: detached subtrees are not represented.
    - Timers and animation frames are not modelled: a deferred callback is a
      function applied to the page, the layout and the scroll offset of the
      moment it runs.
    - JavaScript numbers holding pixel quantities are exact rationals [Q]. *)

From Stdlib Require Import String Ascii List ZArith QArith Qminmax Qabs Lqa Lia Bool.
From Stdlib Require Import DecimalString.
From stdpp Require Import gmap strings.
Import ListNotations.

Local Open Scope string_scope.
Local Open Scope list_scope.

(** ** JavaScript string primitives used by the scripts *)

Module JS.

(** White space removed by [String.prototype.trim], restricted to code
    units below 256: TAB, LF, VT, FF, CR, SPACE and NBSP. *)
Definition isWhiteSpace (c : ascii) : bool :=
  match nat_of_ascii c with
  | 9%nat | 10%nat | 11%nat | 12%nat | 13%nat | 32%nat | 160%nat => true
  | _ => false
  end.

Fixpoint trimStart (s : string) : string :=
  match s with
  | EmptyString => EmptyString
  | String c s' => if isWhiteSpace c then trimStart s' else s
  end.

Fixpoint trimEnd (s : string) : string :=
  match s with
  | EmptyString => EmptyString
  | String c s' =>
      match trimEnd s' with
      | EmptyString => if isWhiteSpace c then EmptyString else String c EmptyString
      | t => String c t
      end
  end.

(** [s.trim()] *)
Definition trim (s : string) : string := trimEnd (trimStart s).

(** [s.indexOf(needle)], [None] standing for -1. *)
Definition indexOf (needle s : string) : option nat := String.index 0 needle s.

(** [s.includes(needle)] *)
Definition includes (needle s : string) : bool :=
  match indexOf needle s with Some _ => true | None => false end.

Fixpoint drop (n : nat) (s : string) : string :=
  match n, s with
  | O, _ => s
  | S _, EmptyString => EmptyString
  | S n', String _ s' => drop n' s'
  end.

(** [s.substring(0, n)] *)
Definition substring0 (n : nat) (s : string) : string := String.substring 0 n s.

(** [s.substr(start, len)] for a non-negative [start]. *)
Definition substr (start len : nat) (s : string) : string := String.substring start len s.

(** [s.replace(pat, rep)] with a string pattern: the first occurrence only. *)
Definition replace (pat rep s : string) : string :=
  match indexOf pat s with
  | Some i => substring0 i s ++ rep ++ drop (i + String.length pat) s
  | None => s
  end.

(** [s.replace(/pat/g, rep)] for a pattern without metacharacters: every
    occurrence, left to right, without overlap. *)
Fixpoint replaceAllFuel (fuel : nat) (pat rep s : string) : string :=
  match fuel with
  | O => s
  | S fuel' =>
      match s with
      | EmptyString => EmptyString
      | String c s' =>
          if String.prefix pat s
          then rep ++ replaceAllFuel fuel' pat rep (drop (String.length pat) s)
          else String c (replaceAllFuel fuel' pat rep s')
      end
  end.

Definition replaceAll (pat rep s : string) : string :=
  replaceAllFuel (String.length s) pat rep s.

(** Value of a digit in radix 16. *)
Definition hexDigit (c : ascii) : option Z :=
  let n := Z.of_nat (nat_of_ascii c) in
  if (48 <=? n)%Z && (n <=? 57)%Z then Some (n - 48)%Z
  else if (97 <=? n)%Z && (n <=? 102)%Z then Some (n - 87)%Z
  else if (65 <=? n)%Z && (n <=? 70)%Z then Some (n - 55)%Z
  else None.

(** The digits of [parseInt]: the longest prefix of hexadecimal digits,
    accumulated from [acc]; the flag records that a digit was read. *)
Fixpoint hexDigits (s : string) (acc : Z) (seen : bool) : option Z :=
  match s with
  | EmptyString => if seen then Some acc else None
  | String c s' =>
      match hexDigit c with
      | Some d => hexDigits s' (16 * acc + d)%Z true
      | None => if seen then Some acc else None
      end
  end.

Definition stripHexPrefix (s : string) : string :=
  match s with
  | String "0" (String "x" s') => s'
  | String "0" (String "X" s') => s'
  | _ => s
  end.

(** [parseInt(s, 16)]: leading white space, an optional sign, an optional
    [0x], then digits; [None] is NaN. *)
Definition parseInt16 (s : string) : option Z :=
  match trimStart s with
  | String "-" s' => option_map Z.opp (hexDigits (stripHexPrefix s') 0 false)
  | String "+" s' => hexDigits (stripHexPrefix s') 0 false
  | s' => hexDigits (stripHexPrefix s') 0 false
  end.

(** Decimal rendering of a non-negative integer in a template literal. *)
Definition showNat (n : nat) : string := NilEmpty.string_of_uint (Nat.to_uint n).

Definition showN (n : N) : string := NilEmpty.string_of_uint (N.to_uint n).

End JS.

(** ** The host page *)

(** A host element as the scripts observe it.  [eid] is the identity of the
    DOM node (the scripts hold references); the remaining fields are the
    readings of [tagName], the [style] and [data-testid] attributes,
    [classList], [textContent], [innerHTML] and [outerHTML]. *)
Record Element := mkElement {
  eid : nat;
  tagName : string;
  styleAttr : string;
  testid : option string;
  classList : list string;
  textContent : string;
  innerHTML : string;
  outerHTML : string
}.

(** Inline styles written by [applyContainerStyles] and [applyThemeStyles]
    that depend on the settings (the fixed structural styles are the same for
    every container and are left out). *)
Record ContainerStyle := mkContainerStyle {
  cs_maxHeight : Z;
  cs_fontSize : Z;
  cs_fontFamily : string;
  cs_background : string;
  cs_borderColor : string;
  cs_color : string;
  cs_border : string
}.

(** Theme-dependent inline styles written by [applyMarkerStyles]. *)
Record MarkerStyle := mkMarkerStyle {
  ms_backgroundColor : string;
  ms_color : string;
  ms_borderColor : string
}.

(** Children the styler appends to a content wrapper: a marker chip (a
    [span] with the marker class and the given text), a line whose
    [textContent] was set, and a line whose [innerHTML] was set.  The nodes
    the browser parses out of the markup of such a line are not
    represented. *)
Inductive WrapperChild :=
| MarkerChip (className : string) (text : string) (style : MarkerStyle)
| TextLine (text : string)
| MarkupLine (markup : string).

(** The element built by [wrapSingleRange]: a [div] with the container
    class, whose only child, once appended, is the content wrapper. *)
Record Container := mkContainer {
  nodeId : nat;
  c_className : string;
  c_id : string;
  c_style : ContainerStyle;
  c_wrapper : option (list WrapperChild)
}.

Local Set Warnings "-register-all".

Inductive node :=
| TextNode (data : string)
| HostElement (e : Element) (childNodes : list node)
| StyledContainer (c : Container).

(** The children of the document body, in document order.  Node identities
    are positive; 0 is the body.  A styled container has no host element
    below it, and neither it nor its content matches the selectors of the
    detector (its inline font size is a pixel size). *)
Definition DOM := list node.

Module Dom.

Definition nodeKey (n : node) : option nat :=
  match n with
  | TextNode _ => None
  | HostElement e _ => Some (eid e)
  | StyledContainer c => Some (nodeId c)
  end.

Definition isNode (id : nat) (n : node) : bool :=
  match nodeKey n with Some k => Nat.eqb k id | None => false end.

(** [nodeClassList n] is [n.classList]; a text node has none. *)
Definition nodeClassList (n : node) : option (list string) :=
  match n with
  | TextNode _ => None
  | HostElement e _ => Some (classList e)
  | StyledContainer c => Some [c_className c]
  end.

Definition hasClass (cls : string) (n : node) : bool :=
  match nodeClassList n with
  | Some l => existsb (String.eqb cls) l
  | None => false
  end.

(** Where a node sits: its ancestors (nearest first), itself and the
    siblings after it. *)
Record Location := mkLocation {
  ancestors : list Element;
  self : node;
  following : list node
}.

(** The [body] element, parent of the top-level nodes. *)
Definition bodyElement : Element :=
  mkElement 0 "BODY" "" None [] "" "" "".

(** Search strictly below [n]. *)
Fixpoint locateBelow (id : nat) (anc : list Element) (n : node) : option Location :=
  match n with
  | HostElement e kids =>
      (fix scan (l : list node) : option Location :=
         match l with
         | [] => None
         | k :: rest =>
             if isNode id k then Some (mkLocation (e :: anc) k rest)
             else match locateBelow id (e :: anc) k with
                  | Some loc => Some loc
                  | None => scan rest
                  end
         end) kids
  | _ => None
  end.

Definition locate (id : nat) (dom : DOM) : option Location :=
  locateBelow id [] (HostElement bodyElement dom).

(** [parent.insertBefore(new, ref)] where [parent] is the parent of [ref]. *)
Fixpoint insertBeforeBelow (new : node) (ref : nat) (n : node) : node :=
  match n with
  | HostElement e kids =>
      HostElement e
        (flat_map (fun k => if isNode ref k then [new; k]
                            else [insertBeforeBelow new ref k]) kids)
  | _ => n
  end.

Definition children (n : node) : list node :=
  match n with HostElement _ kids => kids | _ => [] end.

Definition insertBefore (new : node) (ref : nat) (dom : DOM) : DOM :=
  children (insertBeforeBelow new ref (HostElement bodyElement dom)).

(** [element.remove()] *)
Fixpoint removeBelow (id : nat) (n : node) : node :=
  match n with
  | HostElement e kids =>
      HostElement e
        (flat_map (fun k => if isNode id k then [] else [removeBelow id k]) kids)
  | _ => n
  end.

Definition remove (id : nat) (dom : DOM) : DOM :=
  children (removeBelow id (HostElement bodyElement dom)).

(** [container.appendChild(contentWrapper)] for the container [id]. *)
Fixpoint appendWrapperBelow (id : nat) (w : list WrapperChild) (n : node) : node :=
  match n with
  | HostElement e kids => HostElement e (map (appendWrapperBelow id w) kids)
  | StyledContainer c =>
      if Nat.eqb (nodeId c) id
      then StyledContainer
             (mkContainer (nodeId c) (c_className c) (c_id c) (c_style c) (Some w))
      else n
  | TextNode _ => n
  end.

Definition appendWrapper (id : nat) (w : list WrapperChild) (dom : DOM) : DOM :=
  map (appendWrapperBelow id w) dom.

(** [document.contains(x)] *)
Definition contains (id : nat) (dom : DOM) : bool :=
  match locate id dom with Some _ => true | None => false end.

(** [x.parentNode], as far as the scripts test it: null or not. *)
Definition hasParentNode (id : nat) (dom : DOM) : bool := contains id dom.

(** [x.nextSibling] *)
Definition nextSibling (id : nat) (dom : DOM) : option node :=
  match locate id dom with
  | Some loc => hd_error (following loc)
  | None => None
  end.

(** [x.closest('.' + cls)], as far as the scripts test it: whether the
    element itself or one of its ancestors carries the class.  [x] is the
    element read by the caller; its ancestors are looked up in the page. *)
Definition closest (cls : string) (x : Element) (dom : DOM) : bool :=
  existsb (String.eqb cls) (classList x)
  || match locate (eid x) dom with
     | Some loc => existsb (fun a => existsb (String.eqb cls) (classList a)) (ancestors loc)
     | None => false
     end.

(** All host elements strictly below [n], in document order. *)
Fixpoint elementsBelow (n : node) : list Element :=
  match n with
  | HostElement e kids => flat_map (fun k => match k with
                                             | HostElement e' _ => e' :: elementsBelow k
                                             | _ => []
                                             end) kids
  | _ => []
  end.

Definition elementsOf (dom : DOM) : list Element :=
  elementsBelow (HostElement bodyElement dom).

(** The node of an element, to search below it. *)
Definition subtree (id : nat) (dom : DOM) : option node :=
  option_map self (locate id dom).

End Dom.

(** ** Detection module ([ThinkBlockDetector]) *)

(** A range under construction or completed.  [endElement] is absent until
    the end marker is reached. *)
Record Range := mkRange {
  startElement : Element;
  elements : list Element;
  processed : bool;
  endElement : option Element
}.

Record ThinkBlockDetector := mkDetector {
  startMarker : string;
  endMarker : string;
  processedBlocks : gset string;
  debugMode : bool
}.

Module Detector.

(** The state set up by the constructor. *)
Definition new : ThinkBlockDetector :=
  mkDetector "&lt;think&gt;" "&lt;/think&gt;" ∅ false.

Definition containerClassName : string := "think-inside-box-container".

(** [marker.replace(/&lt;/g, '<').replace(/&gt;/g, '>')] *)
Definition decodeMarker (marker : string) : string :=
  JS.replaceAll "&gt;" ">" (JS.replaceAll "&lt;" "<" marker).

(** [div[style*="font-size: 1rem"]] *)
Definition isCandidate (e : Element) : bool :=
  String.eqb (tagName e) "DIV" && JS.includes "font-size: 1rem" (styleAttr e).

(** [[data-testid="virtuoso-item-list"]] *)
Definition isVirtuosoList (e : Element) : bool :=
  match testid e with
  | Some v => String.eqb v "virtuoso-item-list"
  | None => false
  end.

(** The two tests that open a range when none is open. *)
Definition isStartMarker (d : ThinkBlockDetector) (element : Element) : bool :=
  String.eqb (JS.trim (textContent element)) (decodeMarker (startMarker d))
  || String.eqb (JS.trim (innerHTML element)) (startMarker d).

(** The two tests that close the open range. *)
Definition isEndMarker (d : ThinkBlockDetector) (element : Element) : bool :=
  String.eqb (JS.trim (textContent element)) (decodeMarker (endMarker d))
  || String.eqb (JS.trim (innerHTML element)) (endMarker d).

Definition openRange (element : Element) : Range :=
  mkRange element [element] false None.

Definition pushElement (r : Range) (element : Element) : Range :=
  mkRange (startElement r) (elements r ++ [element]) (processed r) (endElement r).

Definition closeRange (r : Range) (element : Element) : Range :=
  mkRange (startElement r) (elements r ++ [element]) (processed r) (Some element).

(** State of the loop of [processElements]: the ranges pushed so far and
    [currentRange]. *)
Definition LoopState : Type := list Range * option Range.

(** One iteration of the [for ... of] loop, its five branches in order. *)
Definition step (d : ThinkBlockDetector) (st : LoopState) (element : Element) : LoopState :=
  let '(ranges, currentRange) := st in
  let text := JS.trim (textContent element) in
  match currentRange with
  | None =>
      if String.eqb text (decodeMarker (startMarker d)) then
        (ranges, Some (openRange element))
      else if String.eqb (JS.trim (innerHTML element)) (startMarker d) then
        (ranges, Some (openRange element))
      else (ranges, None)
  | Some cur =>
      if String.eqb text (decodeMarker (endMarker d)) then
        (ranges ++ [closeRange cur element], None)
      else if String.eqb (JS.trim (innerHTML element)) (endMarker d) then
        (ranges ++ [closeRange cur element], None)
      else (ranges, Some (pushElement cur element))
  end.

Definition loop (d : ThinkBlockDetector) (st : LoopState) (allElements : list Element)
  : LoopState :=
  fold_left (step d) allElements st.

(** [range.endElement?.outerHTML || ''] *)
Definition endMarkup (range : Range) : string :=
  match endElement range with
  | Some e => outerHTML e
  | None => ""
  end.

(** [generateRangeKey] *)
Definition generateRangeKey (range : Range) : string :=
  outerHTML (startElement range) ++ "-" ++ endMarkup range.

Definition withProcessed (d : ThinkBlockDetector) (s : gset string) : ThinkBlockDetector :=
  mkDetector (startMarker d) (endMarker d) s (debugMode d).

(** The test of [isProcessed] for a styled container near the start
    element: the element has a parent and either its next sibling carries
    the container class or [closest] finds the class. *)
Definition siblingIsContainer (dom : DOM) (start : Element) : bool :=
  match Dom.nextSibling (eid start) dom with
  | Some nextSibling => Dom.hasClass containerClassName nextSibling
  | None => false
  end.

Definition insideContainer (dom : DOM) (start : Element) : bool :=
  Dom.closest containerClassName start dom.

Definition containerNear (dom : DOM) (start : Element) : bool :=
  Dom.hasParentNode (eid start) dom
  && (siblingIsContainer dom start || insideContainer dom start).

(** [isProcessed]: the answer and the detector after the call. *)
Definition isProcessed (dom : DOM) (d : ThinkBlockDetector) (range : Range)
  : bool * ThinkBlockDetector :=
  let key := generateRangeKey range in
  if bool_decide (key ∈ processedBlocks d) then
    if containerNear dom (startElement range) then (true, d)
    else (false, withProcessed d (processedBlocks d ∖ {[key]}))
  else (false, d).

(** [markAsProcessed] *)
Definition markAsProcessed (d : ThinkBlockDetector) (range : Range) : ThinkBlockDetector :=
  withProcessed d ({[generateRangeKey range]} ∪ processedBlocks d).

(** [clearProcessedBlocks] *)
Definition clearProcessedBlocks (d : ThinkBlockDetector) : ThinkBlockDetector :=
  withProcessed d ∅.

(** [ranges.filter(range => !this.isProcessed(range))], the detector
    threaded through the calls in order. *)
Fixpoint filterUnprocessed (dom : DOM) (d : ThinkBlockDetector) (ranges : list Range)
  : list Range * ThinkBlockDetector :=
  match ranges with
  | [] => ([], d)
  | r :: rest =>
      let '(p, d1) := isProcessed dom d r in
      let '(kept, d2) := filterUnprocessed dom d1 rest in
      (if p then kept else r :: kept, d2)
  end.

(** [processElements] *)
Definition processElements (dom : DOM) (d : ThinkBlockDetector) (allElements : list Element)
  : list Range * ThinkBlockDetector :=
  let '(ranges, _) := loop d ([], None) allElements in
  filterUnprocessed dom d ranges.

(** The elements [scanDocument] hands to [processElements]: the candidates
    inside the virtualised list when it exists, else those of the whole
    document. *)
Definition candidates (dom : DOM) : list Element :=
  match find isVirtuosoList (Dom.elementsOf dom) with
  | Some virtuosoContainer =>
      match Dom.subtree (eid virtuosoContainer) dom with
      | Some n => List.filter isCandidate (Dom.elementsBelow n)
      | None => []
      end
  | None => List.filter isCandidate (Dom.elementsOf dom)
  end.

(** [scanDocument]; the debug pass only writes to the console. *)
Definition scanDocument (dom : DOM) (d : ThinkBlockDetector)
  : list Range * ThinkBlockDetector :=
  processElements dom d (candidates dom).

(** [ranges.forEach(range => detector.markAsProcessed(range))], as the
    monitor calls it after wrapping. *)
Fixpoint markAll (d : ThinkBlockDetector) (ranges : list Range) : ThinkBlockDetector :=
  match ranges with
  | [] => d
  | r :: rest => markAll (markAsProcessed d r) rest
  end.

End Detector.

(** ** Styling module ([ThinkBlockStyler]) *)

Record Settings := mkSettings {
  enabled : bool;
  theme : string;
  maxHeight : Z;
  fontSize : Z;
  fontFamily : string;
  backgroundColor : string;
  borderColor : string;
  textColor : string;
  markerColor : string
}.

Record ThinkBlockStyler := mkStyler {
  containerClass : string;
  markerClass : string;
  contentClass : string;
  settings : Settings
}.

(** The page as the styler changes it: the tree, the next unused node
    identity and the reading of [Date.now()]. *)
Record Page := mkPage {
  dom : DOM;
  nextNode : nat;
  now : N
}.

(** What [wrapThinkingBlocks] returns.  The disabled branch returns an
    object without [rangeCount]. *)
Record ProcessingResults := mkResults {
  containers : list nat;
  totalNewHeight : Q;
  rangeCount : option nat
}.

(** Outcome of a call that may throw. *)
Inductive Completion (A : Type) :=
| Returned (value : A)
| Threw.
Arguments Returned {A} value.
Arguments Threw {A}.

Module Styler.

(** The state set up by the constructor. *)
Definition new : ThinkBlockStyler :=
  mkStyler "think-inside-box-container" "think-inside-box-marker"
    "think-inside-box-content"
    (mkSettings true "default" 200 13 "Consolas, monospace"
       "#313338" "#5b21b6" "#c6a3ff" "#8e67ff").

(** [getContrastColor] *)
Definition getContrastColor (hexColor : string) : string :=
  let color := JS.replace "#" "" hexColor in
  let r := JS.parseInt16 (JS.substr 0 2 color) in
  let g := JS.parseInt16 (JS.substr 2 2 color) in
  let b := JS.parseInt16 (JS.substr 4 2 color) in
  match r, g, b with
  | Some r, Some g, Some b =>
      let brightness := (inject_Z (r * 299 + g * 587 + b * 114) / 1000)%Q in
      if Qle_bool brightness 128 then "#ffffff" else "#000000"
  | _, _, _ => "#ffffff" (* NaN > 128 is false *)
  end.

(** [applyThemeStyles] on top of the settings-dependent base styles of
    [applyContainerStyles]. *)
Definition applyContainerStyles (s : ThinkBlockStyler) : ContainerStyle :=
  let st := settings s in
  let base := mkContainerStyle (maxHeight st) (fontSize st) (fontFamily st) in
  if String.eqb (theme st) "dark" then
    base "linear-gradient(145deg, #2d3748, #1a202c)" "#4a5568" "#e2e8f0"
         "1px solid #4a5568"
  else if String.eqb (theme st) "minimal" then
    base "#ffffff" "#e0e0e0" "#333333" "1px solid #e0e0e0"
  else if String.eqb (theme st) "custom" then
    base (backgroundColor st) (borderColor st) (textColor st)
         ("1px solid " ++ borderColor st)%string
  else
    base "linear-gradient(145deg, #313338, #2d2f32)" "#5b21b6" "#c6a3ff"
         "1px solid #5b21b6".

(** [applyMarkerStyles] *)
Definition applyMarkerStyles (s : ThinkBlockStyler) : MarkerStyle :=
  let st := settings s in
  if String.eqb (theme st) "dark" then mkMarkerStyle "#4a5568" "#cbd5e0" "#5a6578"
  else if String.eqb (theme st) "minimal" then mkMarkerStyle "#f5f5f5" "#666666" "#e0e0e0"
  else if String.eqb (theme st) "custom" then
    mkMarkerStyle (markerColor st) (getContrastColor (markerColor st)) (borderColor st)
  else mkMarkerStyle "#5b21b6" "#c6a3ff" "#8e67ff".

(** [createMarker] *)
Definition createMarker (s : ThinkBlockStyler) (text : string) : WrapperChild :=
  MarkerChip (markerClass s) text (applyMarkerStyles s).

(** The body of the [forEach] of [processRangeElements] for one element:
    the children appended to the content wrapper. *)
Definition processElement (s : ThinkBlockStyler) (count index : nat) (element : Element)
  : list WrapperChild :=
  let text := textContent element in
  if Nat.eqb index 0 && JS.includes "&lt;think&gt;" text then
    let marker := createMarker s "&lt;think&gt;" in
    let remainingText := JS.trim (JS.replace "&lt;think&gt;" "" text) in
    if String.eqb remainingText "" then [marker] else [marker; TextLine remainingText]
  else if Nat.eqb index (count - 1) && JS.includes "&lt;/think&gt;" text then
    let contentText :=
      match JS.indexOf "&lt;/think&gt;" text with
      | Some endIndex => JS.trim (JS.substring0 endIndex text)
      | None => ""
      end in
    let marker := createMarker s "&lt;/think&gt;" in
    if String.eqb contentText "" then [marker] else [TextLine contentText; marker]
  else [MarkupLine (innerHTML element)].

(** [processRangeElements]: every element is read, its lines are appended
    to the wrapper, and the element is removed from the page. *)
Fixpoint processFrom (s : ThinkBlockStyler) (count index : nat) (els : list Element)
    (dom : DOM) (wrapper : list WrapperChild) : DOM * list WrapperChild :=
  match els with
  | [] => (dom, wrapper)
  | element :: rest =>
      let wrapper' := wrapper ++ processElement s count index element in
      processFrom s count (S index) rest (Dom.remove (eid element) dom) wrapper'
  end.

Definition processRangeElements (s : ThinkBlockStyler) (range : Range) (dom : DOM)
    (wrapper : list WrapperChild) : DOM * list WrapperChild :=
  processFrom s (List.length (elements range)) 0 (elements range) dom wrapper.

(** [wrapSingleRange].  The function has no [return] statement: when it
    completes it yields [undefined], here [None], whatever it built.  It
    throws when the start element has no parent. *)
Definition wrapSingleRange (s : ThinkBlockStyler) (p : Page) (range : Range) (index : nat)
  : Page * Completion (option nat) :=
  let container :=
    mkContainer (nextNode p) (containerClass s)
      ("think-box-" ++ JS.showNat index ++ "-" ++ JS.showN (now p))%string
      (applyContainerStyles s) None in
  let p1 := mkPage (dom p) (S (nextNode p)) (now p) in
  let start := startElement range in
  if Dom.hasParentNode (eid start) (dom p1) then
    let dom2 := Dom.insertBefore (StyledContainer container) (eid start) (dom p1) in
    let '(dom3, wrapper) := processRangeElements s range dom2 [] in
    let dom4 := Dom.appendWrapper (nodeId container) wrapper dom3 in
    (mkPage dom4 (nextNode p1) (now p1), Returned None)
  else (p1, Threw).

(** The [forEach] of [wrapThinkingBlocks]: a handle is pushed when
    [wrapSingleRange] returns a truthy value; a throw is caught and the
    loop goes on. *)
Fixpoint wrapFrom (s : ThinkBlockStyler) (index : nat) (ranges : list Range)
    (p : Page) (acc : list nat) : Page * list nat :=
  match ranges with
  | [] => (p, acc)
  | range :: rest =>
      let '(p', outcome) := wrapSingleRange s p range index in
      let acc' :=
        match outcome with
        | Returned (Some container) => acc ++ [container]
        | Returned None => acc
        | Threw => acc
        end in
      wrapFrom s (S index) rest p' acc'
  end.

(** [wrapThinkingBlocks] *)
Definition wrapThinkingBlocks (s : ThinkBlockStyler) (p : Page) (ranges : list Range)
  : Page * ProcessingResults :=
  if negb (enabled (settings s)) then (p, mkResults [] 0 None)
  else
    let '(p', containers) := wrapFrom s 0 ranges p [] in
    (p', mkResults containers 0 (Some (List.length ranges))).

End Styler.

(** ** Monitoring module ([ThinkBlockMonitor]): the processing pass *)

(** The anchor captured before a pass.  [anchorElement] is the identity of
    the reference element, if one was found. *)
Record ScrollAnchor := mkAnchor {
  scrollTop : Q;
  anchorElement : option nat;
  anchorOffset : Q
}.

Record HeightMeasurements := mkHeights {
  totalOriginalHeight : Q;
  rangeHeights : list Q
}.

(** The browser's layout at some instant: the rendered height and the
    computed vertical margins of a node, by identity. *)
Record Layout := mkLayout {
  offsetHeight : nat -> Q;
  marginTop : nat -> Q;
  marginBottom : nat -> Q
}.

(** The scroll container: its scroll offset and the two dimensions read by
    the pass. *)
Record ScrollContainer := mkScroll {
  position : Q;
  scrollHeight : Q;
  clientHeight : Q
}.

Module Monitor.

Local Open Scope Q_scope.

Definition Qlt_bool (a b : Q) : bool := negb (Qle_bool b a).

(** [measureContentHeights]: an element is measured when it has a
    non-zero [offsetHeight]. *)
Definition elementHeight (layout : Layout) (element : Element) : Q :=
  if Qeq_bool (offsetHeight layout (eid element)) 0 then 0
  else offsetHeight layout (eid element)
       + (marginTop layout (eid element) + marginBottom layout (eid element)).

Definition rangeHeight (layout : Layout) (range : Range) : Q :=
  fold_left (fun acc element => acc + elementHeight layout element) (elements range) 0.

Definition measureContentHeights (layout : Layout) (ranges : list Range)
  : HeightMeasurements :=
  let heights := map (rangeHeight layout) ranges in
  mkHeights (fold_left Qplus heights 0) heights.

(** [scrollToPosition] *)
Definition scrollToPosition (sc : ScrollContainer) (target : Q) : ScrollContainer :=
  mkScroll (Qmax 0 target) (scrollHeight sc) (clientHeight sc).

(** [calculateHeightAdjustmentForAnchor] *)
Definition calculateHeightAdjustmentForAnchor (sc : ScrollContainer)
    (scrollAnchor : ScrollAnchor) (totalHeightDifference : Q) : Q :=
  if Qlt_bool (Qabs totalHeightDifference) 5 then 0
  else
    let scrollRatio :=
      Qmin 1 (scrollTop scrollAnchor / Qmax 1 (scrollHeight sc - clientHeight sc)) in
    let adjustmentFactor := (7 # 10) + scrollRatio * (3 # 10) in
    totalHeightDifference * adjustmentFactor.

(** The offset [performAnchorBasedRestore] aims at. *)
Definition adjustedScrollTop (sc : ScrollContainer) (scrollAnchor : ScrollAnchor)
    (totalHeightDifference : Q) : Q :=
  scrollTop scrollAnchor
  + calculateHeightAdjustmentForAnchor sc scrollAnchor totalHeightDifference.

(** [performAnchorBasedRestore] *)
Definition performAnchorBasedRestore (sc : ScrollContainer) (scrollAnchor : ScrollAnchor)
    (totalHeightDifference : Q) : ScrollContainer :=
  let target := adjustedScrollTop sc scrollAnchor totalHeightDifference in
  if Qlt_bool 5 (Qabs (target - position sc)) then scrollToPosition sc target else sc.

(** The offset [performHeightBasedRestore] aims at. *)
Definition targetScrollTop (scrollAnchor : ScrollAnchor) (totalHeightDifference : Q) : Q :=
  let adjustment := totalHeightDifference * (8 # 10) in
  Qmax 0 (scrollTop scrollAnchor + adjustment).

(** [performHeightBasedRestore] *)
Definition performHeightBasedRestore (sc : ScrollContainer) (scrollAnchor : ScrollAnchor)
    (totalHeightDifference : Q) : ScrollContainer :=
  let target := targetScrollTop scrollAnchor totalHeightDifference in
  if Qlt_bool 5 (Qabs (target - position sc)) then scrollToPosition sc target else sc.

(** Height of one new container, counted when it is still in the page. *)
Definition containerHeight (layout : Layout) (dom : DOM) (container : nat) : Q :=
  if Dom.contains container dom
  then offsetHeight layout container
       + marginTop layout container + marginBottom layout container
  else 0.

(** [totalHeightDifference] as [performHeightAdjustedRestore] computes it:
    it stays 0 unless the results list at least one container. *)
Definition heightDifference (layout : Layout) (dom : DOM)
    (heightMeasurements : HeightMeasurements) (processingResults : ProcessingResults) : Q :=
  match containers processingResults with
  | [] => 0
  | cs =>
      let totalNewHeight :=
        fold_left (fun acc c => acc + containerHeight layout dom c) cs 0 in
      totalNewHeight - totalOriginalHeight heightMeasurements
  end.

Definition anchorPresent (dom : DOM) (scrollAnchor : ScrollAnchor) : bool :=
  match anchorElement scrollAnchor with
  | Some a => Dom.contains a dom
  | None => false
  end.

(** [performHeightAdjustedRestore], run on the page and layout of the
    moment it is called. *)
Definition performHeightAdjustedRestore (layout : Layout) (dom : DOM)
    (sc : ScrollContainer) (scrollAnchor : ScrollAnchor)
    (heightMeasurements : HeightMeasurements) (processingResults : ProcessingResults)
  : ScrollContainer :=
  let totalHeightDifference :=
    heightDifference layout dom heightMeasurements processingResults in
  if anchorPresent dom scrollAnchor
  then performAnchorBasedRestore sc scrollAnchor totalHeightDifference
  else performHeightBasedRestore sc scrollAnchor totalHeightDifference.

(** What a pass leaves behind for the deferred scroll restoration. *)
Record Pending := mkPending {
  pendingAnchor : ScrollAnchor;
  pendingHeights : HeightMeasurements;
  pendingResults : ProcessingResults
}.

Record PassResult := mkPass {
  passDetector : ThinkBlockDetector;
  passPage : Page;
  passRanges : list Range;
  passPending : option Pending
}.

(** [processCurrentContent].  [captured] is what [captureScrollAnchor]
    returns on the page before the pass ([None] when there is no scroll
    container); [layout] is the layout before the pass. *)
Definition processCurrentContent (d : ThinkBlockDetector) (s : ThinkBlockStyler)
    (p : Page) (layout : Layout) (captured : option ScrollAnchor) : PassResult :=
  let '(ranges, d1) := Detector.scanDocument (dom p) d in
  match ranges with
  | [] => mkPass d1 p [] None
  | _ =>
      let heightMeasurements := measureContentHeights layout ranges in
      let '(p', processingResults) := Styler.wrapThinkingBlocks s p ranges in
      let d2 := Detector.markAll d1 ranges in
      mkPass d2 p' ranges
        (option_map (fun a => mkPending a heightMeasurements processingResults) captured)
  end.

(** The deferred half of [restoreScrollPositionWithHeightAdjustment]: it
    runs after the next frame, on the page and layout of that moment. *)
Definition settle (layout : Layout) (dom : DOM) (sc : ScrollContainer)
    (pending : option Pending) : ScrollContainer :=
  match pending with
  | Some pd =>
      performHeightAdjustedRestore layout dom sc
        (pendingAnchor pd) (pendingHeights pd) (pendingResults pd)
  | None => sc
  end.

End Monitor.

(** ** Monitoring module: events that start a pass *)

(** A node as [containsThinkingMarkers] reads it: its [nodeType] and its
    [textContent]. *)
Inductive ObservedNode :=
| TextNodeSeen (text : string)
| ElementSeen (text : string)
| OtherNodeSeen.

(** A mutation record: its [type] with [addedNodes] or [target]. *)
Inductive MutationRecord :=
| ChildList (addedNodes : list ObservedNode)
| CharacterData (target : ObservedNode)
| OtherMutation.

Module Events.

Local Open Scope Q_scope.

(** [containsThinkingMarkers] *)
Definition containsThinkingMarkers (node : ObservedNode) : bool :=
  match node with
  | TextNodeSeen text =>
      JS.includes "&lt;think&gt;" text || JS.includes "&lt;/think&gt;" text
  | ElementSeen text =>
      JS.includes "&lt;think&gt;" text || JS.includes "&lt;/think&gt;" text
  | OtherNodeSeen => false
  end.

(** The loop of [processChanges] that sets [hasRelevantChanges]. *)
Definition relevantMutation (mutation : MutationRecord) : bool :=
  match mutation with
  | ChildList addedNodes => existsb containsThinkingMarkers addedNodes
  | CharacterData target => containsThinkingMarkers target
  | OtherMutation => false
  end.

Definition hasRelevantChanges (mutations : list MutationRecord) : bool :=
  existsb relevantMutation mutations.

(** [processChanges]: the pass it runs, if any. *)
Definition processChanges (d : ThinkBlockDetector) (s : ThinkBlockStyler) (p : Page)
    (layout : Layout) (captured : option ScrollAnchor) (mutations : list MutationRecord)
  : option Monitor.PassResult :=
  if hasRelevantChanges mutations
  then Some (Monitor.processCurrentContent d s p layout captured)
  else None.

(** The debounced callback of [handleScroll]: [currentPosition] is the
    scroll offset when it runs.  It returns the pass it runs, if any; the
    pass works on the detector whose processed set has been cleared. *)
Definition handleScroll (d : ThinkBlockDetector) (s : ThinkBlockStyler) (p : Page)
    (layout : Layout) (captured : option ScrollAnchor)
    (currentPosition lastScrollPosition : Q) : option Monitor.PassResult :=
  let scrollDelta := Qabs (currentPosition - lastScrollPosition) in
  if Monitor.Qlt_bool 50 scrollDelta
  then Some (Monitor.processCurrentContent (Detector.clearProcessedBlocks d) s p
               layout captured)
  else None.

End Events.

(** ** Monitoring module: the scroll anchor *)

(** What [getBoundingClientRect] answers for a node, by identity. *)
Record Geometry := mkGeometry {
  rectTop : nat -> Q;
  rectHeight : nat -> Q
}.

(** The scroll container as [captureScrollAnchor] reads it. *)
Record Viewport := mkViewport {
  vpScrollTop : Q;
  vpClientHeight : Q;
  vpInnerHeight : Q
}.

(** An element returned by [document.elementsFromPoint]. *)
Record HitElement := mkHit {
  hitId : nat;
  hitOffsetHeight : Q;
  hitIsScrollContainer : bool;
  hitClassList : list string
}.

Module Scrolling.

Local Open Scope Q_scope.

(** [scrollContainer.clientHeight || window.innerHeight] *)
Definition viewportHeight (vp : Viewport) : Q :=
  if Qeq_bool (vpClientHeight vp) 0 then vpInnerHeight vp else vpClientHeight vp.

(** The test of the loop over the rows of the virtualised list. *)
Definition rowHoldsTarget (geometry : Geometry) (scrollTop targetY : Q) (item : nat) : bool :=
  let itemTop := rectTop geometry item + scrollTop in
  Qle_bool itemTop targetY && Qle_bool targetY (itemTop + rectHeight geometry item).

(** The test of [elements.find] in the fallback search. *)
Definition usableHit (el : HitElement) : bool :=
  Monitor.Qlt_bool 10 (hitOffsetHeight el)
  && negb (hitIsScrollContainer el)
  && negb (existsb (String.eqb "think-inside-box-container") (hitClassList el)).

(** [captureScrollAnchor].  [vp] is absent when the monitor has no scroll
    container; [items] are the rows of the virtualised list in document
    order (none when the list is missing) and [hits] the elements at the
    target point, topmost first. *)
Definition captureScrollAnchor (geometry : Geometry) (vp : option Viewport)
    (items : list nat) (hits : list HitElement) : option ScrollAnchor :=
  match vp with
  | None => None
  | Some vp =>
      let scrollTop := vpScrollTop vp in
      let targetY := scrollTop + viewportHeight vp * (3 # 10) in
      match find (rowHoldsTarget geometry scrollTop targetY) items with
      | Some item =>
          Some (mkAnchor scrollTop (Some item)
                  (targetY - (rectTop geometry item + scrollTop)))
      | None =>
          match find usableHit hits with
          | Some el =>
              Some (mkAnchor scrollTop (Some (hitId el))
                      (viewportHeight vp * (3 # 10) - rectTop geometry (hitId el)))
          | None => Some (mkAnchor scrollTop None 0)
          end
      end
  end.

(** [fallbackScrollRestore]: the stored offset is assigned as it is. *)
Definition fallbackScrollRestore (sc : ScrollContainer) (scrollAnchor : ScrollAnchor)
  : ScrollContainer :=
  mkScroll (scrollTop scrollAnchor) (scrollHeight sc) (clientHeight sc).

(** [restoreScrollPosition], run on the page and geometry of the frame in
    which its callback fires. *)
Definition restoreScrollPosition (geometry : Geometry) (dom : DOM) (sc : ScrollContainer)
    (scrollAnchor : option ScrollAnchor) : ScrollContainer :=
  match scrollAnchor with
  | None => sc
  | Some a =>
      match anchorElement a with
      | None => sc
      | Some anchor =>
          if negb (Dom.contains anchor dom) then fallbackScrollRestore sc a
          else
            let top := rectTop geometry anchor in
            let currentScrollTop := position sc in
            let desiredAnchorTop := top + currentScrollTop - anchorOffset a in
            let scrollDifference :=
              desiredAnchorTop - (currentScrollTop + top - anchorOffset a) in
            if Monitor.Qlt_bool 5 (Qabs scrollDifference)
            then mkScroll (currentScrollTop + scrollDifference)
                   (scrollHeight sc) (clientHeight sc)
            else sc
      end
  end.

End Scrolling.

(** ** Settings popup ([SettingsManager]) *)

(** The colours [updatePreview] gives the preview box and its marker
    chips. *)
Record PreviewColors := mkPreview {
  pv_background : string;
  pv_borderColor : string;
  pv_color : string;
  pv_markerBackground : string;
  pv_markerColor : string;
  pv_markerBorderColor : string
}.

Module Popup.

(** [getContrastColor] of the popup: the components are read from
    positions 1, 3 and 5. *)
Definition getContrastColor (hexColor : string) : string :=
  let r := JS.parseInt16 (JS.substr 1 2 hexColor) in
  let g := JS.parseInt16 (JS.substr 3 2 hexColor) in
  let b := JS.parseInt16 (JS.substr 5 2 hexColor) in
  match r, g, b with
  | Some r, Some g, Some b =>
      let brightness := (inject_Z (r * 299 + g * 587 + b * 114) / 1000)%Q in
      if Qle_bool brightness 128 then "#ffffff" else "#000000"
  | _, _, _ => "#ffffff"
  end.

(** The colours chosen by [updatePreview] from the values of the form,
    given as a settings record; nothing is chosen when the form says
    disabled. *)
Definition updatePreview (form : Settings) : option PreviewColors :=
  if negb (enabled form) then None
  else if String.eqb (theme form) "dark" then
    Some (mkPreview "linear-gradient(145deg, #2d3748, #1a202c)" "#4a5568" "#e2e8f0"
            "#4a5568" "#cbd5e0" "#4a5568")
  else if String.eqb (theme form) "minimal" then
    Some (mkPreview "#ffffff" "#e0e0e0" "#333333" "#f5f5f5" "#666666" "#e0e0e0")
  else if String.eqb (theme form) "custom" then
    Some (mkPreview (backgroundColor form) (borderColor form) (textColor form)
            (markerColor form) (getContrastColor (markerColor form)) (borderColor form))
  else
    Some (mkPreview "linear-gradient(145deg, #313338, #2d2f32)" "#5b21b6" "#c6a3ff"
            "#5b21b6" "#c6a3ff" "#5b21b6").

End Popup.

(** ** Vocabulary of the statements *)

(** No element of [l] passes the start-marker tests. *)
Definition noStart (d : ThinkBlockDetector) (l : list Element) : bool :=
  forallb (fun x => negb (Detector.isStartMarker d x)) l.

(** No element of [l] passes the end-marker tests. *)
Definition noEnd (d : ThinkBlockDetector) (l : list Element) : bool :=
  forallb (fun x => negb (Detector.isEndMarker d x)) l.

(** Every range, pushed or open, is made of elements already visited. *)
Definition within (seen : list Element) (st : Detector.LoopState) : Prop :=
  Forall (fun r => incl (elements r) seen) (fst st)
  /\ (forall cur, snd st = Some cur -> incl (elements cur) seen).

(** Marker chips and content lines among the children of a wrapper. *)
Definition isChip (c : WrapperChild) : bool :=
  match c with MarkerChip _ _ _ => true | _ => false end.

Definition chipCount (w : list WrapperChild) : nat := List.length (List.filter isChip w).

Definition lineCount (w : list WrapperChild) : nat :=
  List.length (List.filter (fun c => negb (isChip c)) w).

(** Two lowercase hexadecimal digits for a colour component. *)
Definition hexChar (n : Z) : ascii :=
  if (n <? 10)%Z then ascii_of_nat (Z.to_nat (48 + n)) else ascii_of_nat (Z.to_nat (87 + n)).

Definition hexByte (n : Z) : string :=
  String (hexChar (n / 16)) (String (hexChar (n mod 16)) EmptyString).

(** The colour [#rrggbb]. *)
Definition hexColor (r g b : Z) : string :=
  String "#" (hexByte r ++ hexByte g ++ hexByte b).

(** The character [c] occurs in [s]. *)
Fixpoint occurs (c : ascii) (s : string) : bool :=
  match s with
  | EmptyString => false
  | String a s' => Ascii.eqb a c || occurs c s'
  end.

(** The perceived brightness of a colour: weights 0.299, 0.587 and 0.114
    on the red, green and blue components. *)
Definition brightness (r g b : Z) : Q :=
  ((299 # 1000) * inject_Z r + (587 # 1000) * inject_Z g + (114 # 1000) * inject_Z b)%Q.

(** A completed range: the start marker, elements none of which is an end
    marker, then the end marker. *)
Definition wellFormedRange (d : ThinkBlockDetector) (r : Range) : Prop :=
  exists mid e,
    elements r = startElement r :: mid ++ [e]
    /\ noEnd d mid = true
    /\ endElement r = Some e
    /\ Detector.isStartMarker d (startElement r) = true
    /\ Detector.isEndMarker d e = true
    /\ processed r = false.

(** The range under construction: the start marker and the elements
    collected so far, none of which is an end marker. *)
Definition openRangeShape (d : ThinkBlockDetector) (cur : Range) : Prop :=
  exists mid,
    elements cur = startElement cur :: mid
    /\ noEnd d mid = true
    /\ endElement cur = None
    /\ Detector.isStartMarker d (startElement cur) = true
    /\ processed cur = false.

Definition formed (d : ThinkBlockDetector) (st : Detector.LoopState) : Prop :=
  Forall (wellFormedRange d) (fst st)
  /\ (forall cur, snd st = Some cur -> openRangeShape d cur).

(** All elements of a list of ranges, range after range. *)
Definition allElements (ranges : list Range) : list Element :=
  concat (map elements ranges).

(** A node that shows a raw tag, as the detector recognises it by text. *)
Definition showsRawTag (node : ObservedNode) : Prop :=
  match node with
  | TextNodeSeen text | ElementSeen text =>
      JS.trim text = "<think>" \/ JS.trim text = "</think>"
  | OtherNodeSeen => True
  end.

Definition mutationShowsRawTags (mutation : MutationRecord) : Prop :=
  match mutation with
  | ChildList addedNodes => Forall showsRawTag addedNodes
  | CharacterData target => showsRawTag target
  | OtherMutation => True
  end.

(** The page once every element of [els] has been removed. *)
Definition removeAll (els : list Element) (dom : DOM) : DOM :=
  fold_left (fun dm x => Dom.remove (eid x) dm) els dom.

(** The node [id] occurs strictly below [n]. *)
Fixpoint occursBelow (id : nat) (n : node) : bool :=
  match n with
  | HostElement _ kids => existsb (fun k => Dom.isNode id k || occursBelow id k) kids
  | _ => false
  end.

(** ** A sample page

    One row of the virtualised list holding a thinking block as the host
    renders it: three leaf [div]s with the base font size, the first and the
    last showing the raw tags.  Readings the scripts never take (the text of
    the row and of the list) are left empty. *)

Module Sample.

Definition dq : string := String (ascii_of_nat 34) EmptyString.

Definition leaf (id : nat) (text markup : string) : Element :=
  mkElement id "DIV" "font-size: 1rem;" None [] text markup
    ("<div style=" ++ dq ++ "font-size: 1rem;" ++ dq ++ ">" ++ markup ++ "</div>")%string.

Definition host (e : Element) : node := HostElement e [TextNode (textContent e)].

Definition startDiv : Element := leaf 11 "<think>" "&lt;think&gt;".
Definition middleDiv : Element := leaf 12 "Let me reason." "Let me reason.".
Definition endDiv : Element := leaf 13 "</think>" "&lt;/think&gt;".
Definition row : Element := mkElement 10 "DIV" "" None [] "" "" "".
Definition itemList : Element :=
  mkElement 1 "DIV" "" (Some "virtuoso-item-list") [] "" "" "".

Definition inList (rowNodes : list node) : DOM :=
  [HostElement itemList [HostElement row rowNodes]].

(** A block with one line of content. *)
Definition blockDom : DOM := inList [host startDiv; host middleDiv; host endDiv].
Definition blockRange : Range :=
  mkRange startDiv [startDiv; middleDiv; endDiv] false (Some endDiv).

(** An empty block: the two markers next to each other. *)
Definition emptyDom : DOM := inList [host startDiv; host endDiv].
Definition emptyRange : Range := mkRange startDiv [startDiv; endDiv] false (Some endDiv).

(** The same two markers after an earlier pass left a styled container
    and the host rendered the markers again around it. *)
Definition oldContainer : Container :=
  mkContainer 50 "think-inside-box-container" "think-box-0-1700000000000"
    (Styler.applyContainerStyles Styler.new)
    (Some [MarkupLine "&lt;think&gt;"; MarkupLine "&lt;/think&gt;"]).
Definition rerenderedDom : DOM :=
  inList [host startDiv; StyledContainer oldContainer; host endDiv].

Definition pageOf (d : DOM) : Page := mkPage d 100 1700000000000.

(** The styler with styling switched off. *)
Definition disabledStyler : ThinkBlockStyler :=
  mkStyler "think-inside-box-container" "think-inside-box-marker"
    "think-inside-box-content"
    (mkSettings false "default" 200 13 "Consolas, monospace"
       "#313338" "#5b21b6" "#c6a3ff" "#8e67ff").

(** Two elements whose text is the entity-escaped literal itself (the
    page shows the characters [&lt;think&gt;]). *)
Definition escapedStart : Element := leaf 31 "&lt;think&gt;" "&amp;lt;think&amp;gt;".
Definition escapedEnd : Element := leaf 33 "&lt;/think&gt;" "&amp;lt;/think&amp;gt;".
Definition escapedDom : DOM := inList [host escapedStart; host escapedEnd].
Definition escapedRange : Range :=
  mkRange escapedStart [escapedStart; escapedEnd] false (Some escapedEnd).

(** The container [wrapSingleRange] builds on [pageOf _] for the range of
    index 0, with the given wrapper. *)
Definition builtContainer (w : list WrapperChild) : Container :=
  mkContainer 100 "think-inside-box-container" "think-box-0-1700000000000"
    (Styler.applyContainerStyles Styler.new) (Some w).

(** Layout before the pass: each element of the block renders 40px high;
    layout after it: the new container renders 48px high with 16px
    margins above and below. *)
Definition layoutBefore : Layout :=
  mkLayout (fun id => if (11 <=? id)%nat && (id <=? 13)%nat then 40%Q else 0%Q)
    (fun _ => 0%Q) (fun _ => 0%Q).
Definition layoutAfter : Layout :=
  mkLayout (fun id => if (id =? 100)%nat then 48%Q else 0%Q)
    (fun id => if (id =? 100)%nat then 16%Q else 0%Q)
    (fun id => if (id =? 100)%nat then 16%Q else 0%Q).

(** The user has scrolled 500px down a 3000px list in an 800px viewport;
    the anchor is the row (it survives the pass) or the start marker (it
    does not). *)
Definition scroller : ScrollContainer := mkScroll 500 3000 800.
Definition rowAnchor : ScrollAnchor := mkAnchor 500 (Some 10%nat) 0.
Definition lostAnchor : ScrollAnchor := mkAnchor 500 (Some 11%nat) 0.

(** The detector after the earlier pass marked the empty block. *)
Definition tracking : ThinkBlockDetector :=
  Detector.markAsProcessed Detector.new emptyRange.

(** A start marker the host has not closed yet. *)
Definition openDom : DOM := inList [host startDiv; host middleDiv].

(** A second row showing an empty block with the same markup, next to the
    container of an earlier pass. *)
Definition twinStart : Element := leaf 21 "<think>" "&lt;think&gt;".
Definition twinEnd : Element := leaf 23 "</think>" "&lt;/think&gt;".
Definition twinRow : Element := mkElement 20 "DIV" "" None [] "" "" "".
Definition twinRange : Range := mkRange twinStart [twinStart; twinEnd] false (Some twinEnd).
Definition twinDom : DOM :=
  [HostElement itemList
     [HostElement row [host startDiv; host endDiv];
      HostElement twinRow [host twinStart; StyledContainer oldContainer; host twinEnd]]].

End Sample.

(** ** Further sample data *)

Module Cases.

(** The candidates of a page with two blocks, one per row. *)
Definition firstBlock : list Element :=
  [Sample.startDiv; Sample.middleDiv; Sample.endDiv].
Definition secondBlock : list Element := [Sample.twinStart; Sample.twinEnd].

(** An end marker and a line of text with no start marker before them. *)
Definition strayEnd : list Element := [Sample.endDiv; Sample.middleDiv].

(** A start element carrying text after the escaped start literal, and an
    end element carrying text before and after the escaped end literal. *)
Definition chattyStart : Element :=
  Sample.leaf 41 "&lt;think&gt; first thought " "&amp;lt;think&amp;gt; first thought ".
Definition chattyEnd : Element :=
  Sample.leaf 43 " last thought &lt;/think&gt; Hello!"
    " last thought &amp;lt;/think&amp;gt; Hello!".
Definition chattyRange : Range :=
  mkRange chattyStart [chattyStart; Sample.middleDiv; chattyEnd] false (Some chattyEnd).

(** Geometry of a list whose row 10 starts 100px above the viewport top
    and is 600px high; the viewport is 800px high and scrolled by 500px. *)
Definition rowGeometry : Geometry :=
  mkGeometry (fun id => if (id =? 10)%nat then (-100)%Q else 0%Q)
    (fun id => if (id =? 10)%nat then 600%Q else 0%Q).
Definition viewport : Viewport := mkViewport 500 800 900.

(** What lies under the target point when no row holds it: the scroll
    container, a styled container, a thin separator and a paragraph. *)
Definition hits : list HitElement :=
  [mkHit 2 800 true [];
   mkHit 50 80 false ["think-inside-box-container"];
   mkHit 60 4 false [];
   mkHit 61 40 false ["message"]].

(** Mutations that add the elements of a block as the host renders them. *)
Definition rawTagBatch : list MutationRecord :=
  [ChildList [ElementSeen "<think>"; ElementSeen " </think> "];
   CharacterData (TextNodeSeen "<think>")].

(** The custom theme with a light marker colour. *)
Definition customForm : Settings :=
  mkSettings true "custom" 200 13 "Consolas, monospace"
    "#101010" "#202020" "#f0f0f0" "#fefefe".
Definition customStyler : ThinkBlockStyler :=
  mkStyler "think-inside-box-container" "think-inside-box-marker"
    "think-inside-box-content" customForm.

(** Where the start marker of the sample block sits: in the row, before
    the two other elements of the block. *)
Definition startLocation : Dom.Location :=
  Dom.mkLocation [Sample.row; Sample.itemList; Dom.bodyElement]
    (Sample.host Sample.startDiv)
    [Sample.host Sample.middleDiv; Sample.host Sample.endDiv].


End Cases.

(** * Properties *)

(** ** String primitives on the literals of the scripts *)

Example trim_example : JS.trim "  <think> " = "<think>".
Proof. reflexivity. Qed.

Example replaceAll_example :
  JS.replaceAll "&gt;" ">" (JS.replaceAll "&lt;" "<" "&lt;/think&gt;") = "</think>".
Proof. reflexivity. Qed.

Example parseInt16_examples :
  JS.parseInt16 "fe" = Some 254%Z /\ JS.parseInt16 "0x" = None /\ JS.parseInt16 "-1" = Some (-1)%Z.
Proof. repeat split. Qed.

(** ** The scanning loop *)

Section Scan.

Variable d : ThinkBlockDetector.

Lemma loop_app st l1 l2 :
  Detector.loop d st (l1 ++ l2) = Detector.loop d (Detector.loop d st l1) l2.
Proof. apply fold_left_app. Qed.

Lemma loop_cons st x l :
  Detector.loop d st (x :: l) = Detector.loop d (Detector.step d st x) l.
Proof. reflexivity. Qed.

Lemma step_open ranges s :
  Detector.isStartMarker d s = true ->
  Detector.step d (ranges, None) s = (ranges, Some (Detector.openRange s)).
Proof.
  unfold Detector.isStartMarker, Detector.step. intros H.
  destruct (String.eqb (JS.trim (textContent s)) _); [reflexivity|].
  simpl in H. now rewrite H.
Qed.

Lemma step_skip ranges x :
  Detector.isStartMarker d x = false ->
  Detector.step d (ranges, None) x = (ranges, None).
Proof.
  unfold Detector.isStartMarker, Detector.step. intros H.
  apply orb_false_iff in H as [H1 H2]. now rewrite H1, H2.
Qed.

Lemma step_close ranges cur e :
  Detector.isEndMarker d e = true ->
  Detector.step d (ranges, Some cur) e = (ranges ++ [Detector.closeRange cur e], None).
Proof.
  unfold Detector.isEndMarker, Detector.step. intros H.
  destruct (String.eqb (JS.trim (textContent e)) _); [reflexivity|].
  simpl in H. now rewrite H.
Qed.

Lemma step_push ranges cur x :
  Detector.isEndMarker d x = false ->
  Detector.step d (ranges, Some cur) x = (ranges, Some (Detector.pushElement cur x)).
Proof.
  unfold Detector.isEndMarker, Detector.step. intros H.
  apply orb_false_iff in H as [H1 H2]. now rewrite H1, H2.
Qed.

(** With no range open, elements that are not start markers are ignored. *)
Lemma loop_idle ranges l :
  noStart d l = true -> Detector.loop d (ranges, None) l = (ranges, None).
Proof.
  induction l as [|x l IH]; [reflexivity|].
  intros H. apply andb_true_iff in H as [Hx Hl].
  apply negb_true_iff in Hx.
  rewrite loop_cons, (step_skip _ _ Hx). now apply IH.
Qed.

(** With a range open, elements that are not end markers are collected. *)
Lemma loop_collect ranges cur l :
  noEnd d l = true ->
  Detector.loop d (ranges, Some cur) l =
  (ranges, Some (mkRange (startElement cur) (elements cur ++ l)
                   (processed cur) (endElement cur))).
Proof.
  revert cur. induction l as [|x l IH]; intros cur H.
  - rewrite app_nil_r. now destruct cur.
  - apply andb_true_iff in H as [Hx Hl]. apply negb_true_iff in Hx.
    rewrite loop_cons, (step_push _ _ _ Hx), (IH _ Hl). simpl.
    now rewrite <- app_assoc.
Qed.

Lemma step_within seen st x :
  within seen st -> within (seen ++ [x]) (Detector.step d st x).
Proof.
  intros [Hr Hc]. destruct st as [ranges cur].
  assert (Hmono : forall l, incl l seen -> incl l (seen ++ [x]))
    by (intros l Hl; apply incl_appl, Hl).
  assert (Hx : incl [x] (seen ++ [x])) by (apply incl_appr, incl_refl).
  assert (Hr' : Forall (fun r => incl (elements r) (seen ++ [x])) ranges).
  { eapply Forall_impl; [exact Hr|]. intros r. apply Hmono. }
  unfold Detector.step.
  destruct cur as [cur|]; simpl in *.
  - specialize (Hc cur eq_refl).
    assert (Hnew : incl (elements cur ++ [x]) (seen ++ [x]))
      by (apply incl_app; auto).
    repeat match goal with |- context [if ?b then _ else _] => destruct b end;
      split; simpl; try (apply Forall_app; split; [exact Hr'|repeat constructor; exact Hnew]);
      try exact Hr'; try discriminate; intros c Hceq; inversion Hceq; subst; exact Hnew.
  - repeat match goal with |- context [if ?b then _ else _] => destruct b end;
      split; simpl; try exact Hr'; try discriminate;
      intros c Hceq; inversion Hceq; subst; exact Hx.
Qed.

Lemma loop_within l : forall seen st,
  within seen st -> within (seen ++ l) (Detector.loop d st l).
Proof.
  induction l as [|x l IH]; intros seen st H.
  - now rewrite app_nil_r.
  - replace (seen ++ x :: l) with ((seen ++ [x]) ++ l) by now rewrite <- app_assoc.
    rewrite loop_cons. apply IH, step_within, H.
Qed.

(** The open range has no end element yet. *)
Lemma loop_open_unclosed l : forall st,
  (forall cur, snd st = Some cur -> endElement cur = None) ->
  forall cur, snd (Detector.loop d st l) = Some cur -> endElement cur = None.
Proof.
  induction l as [|x l IH]; intros st H; [exact H|].
  rewrite loop_cons. apply IH.
  destruct st as [ranges [cur0|]]; unfold Detector.step; simpl in *;
    repeat match goal with |- context [if ?b then _ else _] => destruct b end;
    simpl; intros c Hc; inversion Hc; subst; simpl; auto.
Qed.

Lemma loop_ranges_within l :
  Forall (fun r => incl (elements r) l) (fst (Detector.loop d ([], None) l)).
Proof.
  apply (loop_within l [] ([], None)). split; [constructor|discriminate].
Qed.

End Scan.

(** ** Processed tracking *)

Section Tracking.

Variable dom : DOM.

Lemma isProcessed_markers d r :
  startMarker (snd (Detector.isProcessed dom d r)) = startMarker d
  /\ endMarker (snd (Detector.isProcessed dom d r)) = endMarker d.
Proof.
  unfold Detector.isProcessed.
  case_bool_decide; [destruct (Detector.containerNear dom _)|]; now simpl.
Qed.

(** [isProcessed] never adds a fingerprint. *)
Lemma isProcessed_subset d r :
  processedBlocks (snd (Detector.isProcessed dom d r)) ⊆ processedBlocks d.
Proof.
  unfold Detector.isProcessed.
  case_bool_decide; [destruct (Detector.containerNear dom _)|]; simpl;
    try reflexivity.
  intros k Hk. now apply elem_of_difference in Hk as [Hk _].
Qed.

(** The answer is [true] exactly when the fingerprint is known and a
    container is found; the set is then left as it is. *)
Lemma isProcessed_true d r :
  fst (Detector.isProcessed dom d r) = true <->
  Detector.generateRangeKey r ∈ processedBlocks d
  /\ Detector.containerNear dom (startElement r) = true.
Proof.
  unfold Detector.isProcessed.
  case_bool_decide; [destruct (Detector.containerNear dom _)|]; simpl;
    split; try tauto; try discriminate; intros [? ?]; try discriminate; tauto.
Qed.

Lemma isProcessed_known_near d r :
  Detector.generateRangeKey r ∈ processedBlocks d ->
  Detector.containerNear dom (startElement r) = true ->
  Detector.isProcessed dom d r = (true, d).
Proof.
  intros Hk Hn. unfold Detector.isProcessed.
  rewrite bool_decide_eq_true_2 by exact Hk. now rewrite Hn.
Qed.

Lemma isProcessed_unknown d r :
  Detector.generateRangeKey r ∉ processedBlocks d ->
  Detector.isProcessed dom d r = (false, d).
Proof.
  intros Hk. unfold Detector.isProcessed.
  now rewrite bool_decide_eq_false_2 by exact Hk.
Qed.

Lemma isProcessed_known_gone d r :
  Detector.generateRangeKey r ∈ processedBlocks d ->
  Detector.containerNear dom (startElement r) = false ->
  Detector.isProcessed dom d r =
  (false, Detector.withProcessed d
            (processedBlocks d ∖ {[Detector.generateRangeKey r]})).
Proof.
  intros Hk Hn. unfold Detector.isProcessed.
  rewrite bool_decide_eq_true_2 by exact Hk. now rewrite Hn.
Qed.

Lemma filterUnprocessed_cons d r rest :
  Detector.filterUnprocessed dom d (r :: rest) =
  let step := Detector.isProcessed dom d r in
  let tail := Detector.filterUnprocessed dom (snd step) rest in
  (if fst step then fst tail else r :: fst tail, snd tail).
Proof.
  simpl. destruct (Detector.isProcessed dom d r) as [p d1]. simpl.
  now destruct (Detector.filterUnprocessed dom d1 rest).
Qed.

(** The filter only drops ranges and only removes fingerprints. *)
Lemma filterUnprocessed_incl ranges : forall d,
  incl (fst (Detector.filterUnprocessed dom d ranges)) ranges.
Proof.
  induction ranges as [|r rest IH]; intros d; [apply incl_refl|].
  rewrite filterUnprocessed_cons. simpl.
  destruct (fst (Detector.isProcessed dom d r)).
  - apply incl_tl, IH.
  - apply incl_cons; [now left|apply incl_tl, IH].
Qed.

Lemma filterUnprocessed_subset ranges : forall d,
  processedBlocks (snd (Detector.filterUnprocessed dom d ranges)) ⊆ processedBlocks d.
Proof.
  induction ranges as [|r rest IH]; intros d; [set_solver|].
  rewrite filterUnprocessed_cons. simpl.
  etransitivity; [apply IH|apply isProcessed_subset].
Qed.

Lemma filterUnprocessed_markers ranges : forall d,
  startMarker (snd (Detector.filterUnprocessed dom d ranges)) = startMarker d
  /\ endMarker (snd (Detector.filterUnprocessed dom d ranges)) = endMarker d.
Proof.
  induction ranges as [|r rest IH]; intros d; [now split|].
  rewrite filterUnprocessed_cons. simpl.
  destruct (IH (snd (Detector.isProcessed dom d r))) as [-> ->].
  apply isProcessed_markers.
Qed.

(** When every range is known and has its container, nothing is kept. *)
Lemma filterUnprocessed_all_processed ranges d :
  Forall (fun r => Detector.generateRangeKey r ∈ processedBlocks d
                   /\ Detector.containerNear dom (startElement r) = true) ranges ->
  Detector.filterUnprocessed dom d ranges = ([], d).
Proof.
  induction 1 as [|r rest [Hk Hn] _ IH]; [reflexivity|].
  rewrite filterUnprocessed_cons, (isProcessed_known_near _ _ Hk Hn). simpl.
  now rewrite IH.
Qed.

(** When every kept range has a container near its start, the pass
    evicted nothing, and every range of the input has its container and is
    either known or kept. *)
Lemma filterUnprocessed_near ranges : forall d,
  Forall (fun r => Detector.containerNear dom (startElement r) = true)
    (fst (Detector.filterUnprocessed dom d ranges)) ->
  snd (Detector.filterUnprocessed dom d ranges) = d
  /\ Forall (fun r => Detector.containerNear dom (startElement r) = true
                      /\ (Detector.generateRangeKey r ∈ processedBlocks d
                          \/ In r (fst (Detector.filterUnprocessed dom d ranges))))
       ranges.
Proof.
  induction ranges as [|r rest IH]; intros d; [now split|].
  rewrite filterUnprocessed_cons. simpl.
  destruct (decide (Detector.generateRangeKey r ∈ processedBlocks d)) as [Hk|Hk].
  - destruct (Detector.containerNear dom (startElement r)) eqn:Hn.
    + rewrite (isProcessed_known_near _ _ Hk Hn). simpl. intros H.
      destruct (IH d H) as [Hd Hall]. split; [exact Hd|].
      constructor; [now split; [|left]|exact Hall].
    + rewrite (isProcessed_known_gone _ _ Hk Hn). simpl. intros H.
      apply Forall_cons in H as [Hr _]. congruence.
  - rewrite (isProcessed_unknown _ _ Hk). simpl. intros H.
    apply Forall_cons in H as [Hr H].
    destruct (IH d H) as [Hd Hall]. split; [exact Hd|].
    constructor; [split; [exact Hr|right; now left]|].
    eapply Forall_impl; [exact Hall|].
    intros x [? [?|?]]; (split; [assumption|]); [now left|right; now right].
Qed.

Lemma markAll_markers ranges : forall d,
  startMarker (Detector.markAll d ranges) = startMarker d
  /\ endMarker (Detector.markAll d ranges) = endMarker d.
Proof.
  induction ranges as [|r rest IH]; intros d; [now split|].
  simpl. destruct (IH (Detector.markAsProcessed d r)) as [-> ->]. now split.
Qed.

Lemma markAll_processed ranges : forall d k,
  k ∈ processedBlocks (Detector.markAll d ranges) <->
  k ∈ processedBlocks d \/ exists r, In r ranges /\ Detector.generateRangeKey r = k.
Proof.
  induction ranges as [|r rest IH]; intros d k; simpl.
  - split; [now left|]. intros [H|[r [[] _]]]. exact H.
  - rewrite IH. simpl. rewrite elem_of_union, elem_of_singleton. split.
    + intros [[->|H]|[r' [Hin Hk']]]; eauto.
    + intros [H|[r' [[->|Hin] Hk']]]; eauto.
Qed.

End Tracking.

(** The loop reads the detector only through its two markers. *)
Lemma loop_markers d d' st l :
  startMarker d' = startMarker d -> endMarker d' = endMarker d ->
  Detector.loop d' st l = Detector.loop d st l.
Proof.
  intros Hs He. revert st. induction l as [|x l IH]; intros st; [reflexivity|].
  rewrite !loop_cons, IH. f_equal.
  unfold Detector.step. now rewrite Hs, He.
Qed.

(** ** Detection *)

(** C7.  A start marker followed by no end marker yields no range.  The
    start marker either opens a range (none is open when it is reached) or,
    not being an end marker, joins the range already open; that range is
    still open when the scan ends and is not emitted.  The scan returns what
    it would return had it stopped before the start marker, every returned
    range lies wholly before it, and the scan adds no fingerprint to the
    processed set. *)
Theorem unterminated_start_discarded dom d l1 s l2 :
  Detector.isStartMarker d s = true ->
  (snd (Detector.loop d ([], None) l1) = None \/ Detector.isEndMarker d s = false) ->
  noEnd d l2 = true ->
  (exists cur,
      snd (Detector.loop d ([], None) (l1 ++ s :: l2)) = Some cur
      /\ In s (elements cur) /\ endElement cur = None
      /\ (snd (Detector.loop d ([], None) l1) = None ->
          startElement cur = s /\ elements cur = s :: l2))
  /\ Detector.processElements dom d (l1 ++ s :: l2) = Detector.processElements dom d l1
  /\ Forall (fun r => incl (elements r) l1)
       (fst (Detector.processElements dom d (l1 ++ s :: l2)))
  /\ processedBlocks (snd (Detector.processElements dom d (l1 ++ s :: l2)))
     ⊆ processedBlocks d.
Proof.
  intros Hs Hopen Hl2.
  assert (Hloop : exists cur,
             Detector.loop d ([], None) (l1 ++ s :: l2)
             = (fst (Detector.loop d ([], None) l1), Some cur)
             /\ In s (elements cur) /\ endElement cur = None
             /\ (snd (Detector.loop d ([], None) l1) = None ->
                 startElement cur = s /\ elements cur = s :: l2)).
  { rewrite loop_app.
    pose proof (loop_open_unclosed d l1 ([], None)) as Hun.
    destruct (Detector.loop d ([], None) l1) as [ranges [cur0|]] eqn:E;
      cbn [fst snd] in *.
    - destruct Hopen as [Hopen|Hend]; [discriminate|].
      rewrite loop_cons, (step_push _ _ _ _ Hend), (loop_collect _ _ _ _ Hl2).
      eexists. split; [reflexivity|]. simpl. split; [|split].
      + apply in_or_app. left. apply in_or_app. right. now left.
      + apply Hun; [discriminate|reflexivity].
      + discriminate.
    - rewrite loop_cons, (step_open _ _ _ Hs), (loop_collect _ _ _ _ Hl2).
      eexists. split; [reflexivity|]. simpl. repeat split. now left. }
  destruct Hloop as (cur & Hloop & Hin & Hend & Hfresh).
  assert (Heq : Detector.processElements dom d (l1 ++ s :: l2) =
                Detector.processElements dom d l1).
  { unfold Detector.processElements. rewrite Hloop.
    now destruct (Detector.loop d ([], None) l1). }
  split; [|split; [exact Heq|split]].
  - exists cur. rewrite Hloop. split; [reflexivity|]. now split; [|split].
  - rewrite Heq. unfold Detector.processElements.
    pose proof (loop_ranges_within d l1) as Hwithin.
    destruct (Detector.loop d ([], None) l1) as [ranges c]. simpl in Hwithin.
    apply List.Forall_forall. intros r Hr.
    apply (filterUnprocessed_incl dom ranges d) in Hr.
    rewrite List.Forall_forall in Hwithin. now apply Hwithin.
  - unfold Detector.processElements.
    destruct (Detector.loop d ([], None) (l1 ++ s :: l2)) as [ranges c].
    apply filterUnprocessed_subset.
Qed.

Lemma unterminated_start_discarded_witness :
  Detector.candidates Sample.openDom = [] ++ Sample.startDiv :: [Sample.middleDiv]
  /\ Detector.scanDocument Sample.openDom Detector.new = ([], Detector.new).
Proof.
  split; [reflexivity|].
  unfold Detector.scanDocument.
  change (Detector.candidates Sample.openDom)
    with ([] ++ Sample.startDiv :: [Sample.middleDiv]).
  destruct (unterminated_start_discarded Sample.openDom Detector.new
              [] Sample.startDiv [Sample.middleDiv]) as (_ & H & _).
  - reflexivity.
  - left. reflexivity.
  - reflexivity.
  - rewrite H. reflexivity.
Defined.

(** What the loop pushes for one well-formed pair: nothing opens before
    [s], nothing closes between [s] and [e], nothing opens after [e]. *)
Lemma loop_single_pair d pre s mid e post :
  noStart d pre = true ->
  Detector.isStartMarker d s = true ->
  noEnd d mid = true ->
  Detector.isEndMarker d e = true ->
  noStart d post = true ->
  Detector.loop d ([], None) (pre ++ s :: mid ++ e :: post) =
  ([mkRange s (s :: mid ++ [e]) false (Some e)], None).
Proof.
  intros Hpre Hs Hmid He Hpost.
  rewrite loop_app, (loop_idle _ _ _ Hpre), loop_cons, (step_open _ _ _ Hs).
  rewrite loop_app, (loop_collect _ _ _ _ Hmid), loop_cons, (step_close _ _ _ _ He).
  now rewrite (loop_idle _ _ _ Hpost).
Qed.

(** C3, counterexample.  The candidates are one start marker followed by one
    end marker, but the fingerprint of the pair is in the processed set and
    the next sibling of the start marker is a styled container: the scan
    returns no range. *)
Lemma scan_single_pair_tracked :
  Detector.candidates Sample.rerenderedDom = [Sample.startDiv; Sample.endDiv]
  /\ Detector.isStartMarker Sample.tracking Sample.startDiv = true
  /\ Detector.isEndMarker Sample.tracking Sample.endDiv = true
  /\ fst (Detector.scanDocument Sample.rerenderedDom Sample.tracking) = [].
Proof. vm_compute. repeat split. Qed.

(** C3, amended.  When the candidates hold exactly one well-formed pair and
    the pair is not tracked as processed (its fingerprint is unknown, or no
    styled container is found near the start marker), the scan returns
    exactly one range, made of the start marker, the elements between the
    markers and the end marker, in document order. *)
Theorem scan_single_pair dom d pre s mid e post :
  Detector.candidates dom = pre ++ s :: mid ++ e :: post ->
  noStart d pre = true ->
  Detector.isStartMarker d s = true ->
  noEnd d mid = true ->
  Detector.isEndMarker d e = true ->
  noStart d post = true ->
  (Detector.generateRangeKey (mkRange s (s :: mid ++ [e]) false (Some e))
     ∉ processedBlocks d
   \/ Detector.containerNear dom s = false) ->
  exists r,
    fst (Detector.scanDocument dom d) = [r]
    /\ startElement r = s /\ endElement r = Some e
    /\ elements r = s :: mid ++ [e].
Proof.
  intros Hc Hpre Hs Hmid He Hpost Hfresh.
  exists (mkRange s (s :: mid ++ [e]) false (Some e)).
  split; [|now repeat split].
  unfold Detector.scanDocument, Detector.processElements.
  rewrite Hc, (loop_single_pair _ _ _ _ _ _ Hpre Hs Hmid He Hpost).
  rewrite filterUnprocessed_cons. simpl.
  set (r := mkRange s (s :: mid ++ [e]) false (Some e)) in *.
  destruct (fst (Detector.isProcessed dom d r)) eqn:Hp; [|reflexivity].
  apply isProcessed_true in Hp as [Hk Hn]. simpl in Hn.
  destruct Hfresh as [Hfresh|Hfresh]; [contradiction|congruence].
Qed.

Lemma scan_single_pair_witness :
  Detector.candidates Sample.blockDom
  = [] ++ Sample.startDiv :: [Sample.middleDiv] ++ Sample.endDiv :: []
  /\ exists r,
       fst (Detector.scanDocument Sample.blockDom Detector.new) = [r]
       /\ startElement r = Sample.startDiv /\ endElement r = Some Sample.endDiv
       /\ elements r = Sample.startDiv :: [Sample.middleDiv] ++ [Sample.endDiv].
Proof.
  split; [reflexivity|].
  apply (scan_single_pair Sample.blockDom Detector.new
           [] Sample.startDiv [Sample.middleDiv] Sample.endDiv []).
  - reflexivity.
  - reflexivity.
  - reflexivity.
  - reflexivity.
  - reflexivity.
  - reflexivity.
  - right. reflexivity.
Defined.

(** C4, counterexample.  The page holds a block and no styled container; the
    first scan returns the block, the block is marked, the page is left
    untouched: the second scan returns the block again, because the
    fingerprint is evicted when no container is found. *)
Lemma rescan_without_container :
  let first := Detector.scanDocument Sample.blockDom Detector.new in
  fst first = [Sample.blockRange]
  /\ fst (Detector.scanDocument Sample.blockDom (Detector.markAll (snd first) (fst first)))
     = [Sample.blockRange].
Proof. vm_compute. split; reflexivity. Qed.

(** C4, amended.  On an unchanged page, when every range returned by a scan
    has a styled container near its start element (as next sibling or as
    [closest] match) and all of them are marked processed, the next scan
    returns no range. *)
Theorem rescan_after_mark dom d :
  Forall (fun r => Detector.containerNear dom (startElement r) = true)
    (fst (Detector.scanDocument dom d)) ->
  fst (Detector.scanDocument dom
         (Detector.markAll (snd (Detector.scanDocument dom d))
            (fst (Detector.scanDocument dom d)))) = [].
Proof.
  unfold Detector.scanDocument, Detector.processElements.
  destruct (Detector.loop d ([], None) (Detector.candidates dom)) as [ranges cur] eqn:E.
  intros Hnear.
  destruct (filterUnprocessed_near dom ranges d Hnear) as [Hd Hall].
  set (kept := fst (Detector.filterUnprocessed dom d ranges)) in *.
  rewrite Hd.
  destruct (markAll_markers kept d) as [Hs He].
  rewrite (loop_markers d _ _ _ Hs He), E.
  rewrite filterUnprocessed_all_processed; [reflexivity|].
  eapply Forall_impl; [exact Hall|].
  intros r [Hn Hk]. split; [|exact Hn].
  apply markAll_processed. destruct Hk as [Hk|Hk]; [now left|right; eauto].
Qed.

Lemma rescan_after_mark_witness :
  fst (Detector.scanDocument Sample.rerenderedDom Detector.new) = [Sample.emptyRange]
  /\ fst (Detector.scanDocument Sample.rerenderedDom
            (Detector.markAll (snd (Detector.scanDocument Sample.rerenderedDom Detector.new))
               (fst (Detector.scanDocument Sample.rerenderedDom Detector.new)))) = [].
Proof.
  split; [reflexivity|].
  apply (rescan_after_mark Sample.rerenderedDom Detector.new).
  repeat constructor.
Defined.

(** C5.  For a range whose fingerprint is in the processed set: when no
    styled container is found as next sibling of the start element nor by
    [closest], [isProcessed] answers [false] and removes exactly that
    fingerprint from the set; and the fingerprint is still in the set after
    the call only if the call found a container and answered [true]. *)
Theorem isProcessed_evicts_without_container dom d range :
  Detector.generateRangeKey range ∈ processedBlocks d ->
  (Detector.siblingIsContainer dom (startElement range) = false ->
   Detector.insideContainer dom (startElement range) = false ->
   fst (Detector.isProcessed dom d range) = false
   /\ processedBlocks (snd (Detector.isProcessed dom d range))
      = processedBlocks d ∖ {[Detector.generateRangeKey range]}
   /\ Detector.generateRangeKey range
      ∉ processedBlocks (snd (Detector.isProcessed dom d range)))
  /\ (Detector.generateRangeKey range
        ∈ processedBlocks (snd (Detector.isProcessed dom d range)) ->
      fst (Detector.isProcessed dom d range) = true
      /\ (Detector.siblingIsContainer dom (startElement range) = true
          \/ Detector.insideContainer dom (startElement range) = true)).
Proof.
  intros Hk. split.
  - intros Hsib Hin.
    assert (Hn : Detector.containerNear dom (startElement range) = false).
    { unfold Detector.containerNear. rewrite Hsib, Hin. apply andb_false_r. }
    rewrite (isProcessed_known_gone _ _ _ Hk Hn). simpl.
    repeat split. apply not_elem_of_difference. right. now apply elem_of_singleton.
  - destruct (Detector.containerNear dom (startElement range)) eqn:Hn.
    + rewrite (isProcessed_known_near _ _ _ Hk Hn). intros _. split; [reflexivity|].
      unfold Detector.containerNear in Hn.
      apply andb_true_iff in Hn as [_ Hn]. now apply orb_true_iff in Hn.
    + rewrite (isProcessed_known_gone _ _ _ Hk Hn). simpl. intros Hin.
      apply elem_of_difference in Hin as [_ Hin].
      exfalso. apply Hin. now apply elem_of_singleton.
Qed.

Lemma isProcessed_evicts_without_container_witness :
  Detector.generateRangeKey Sample.emptyRange ∈ processedBlocks Sample.tracking
  /\ fst (Detector.isProcessed Sample.emptyDom Sample.tracking Sample.emptyRange) = false
  /\ Detector.generateRangeKey Sample.emptyRange
     ∉ processedBlocks
         (snd (Detector.isProcessed Sample.emptyDom Sample.tracking Sample.emptyRange)).
Proof.
  assert (Hk : Detector.generateRangeKey Sample.emptyRange
               ∈ processedBlocks Sample.tracking).
  { apply elem_of_union. left. now apply elem_of_singleton. }
  split; [exact Hk|].
  destruct (isProcessed_evicts_without_container
              Sample.emptyDom Sample.tracking Sample.emptyRange Hk) as [H _].
  destruct (H eq_refl eq_refl) as (Hans & _ & Hgone).
  split; [exact Hans|exact Hgone].
Defined.

(** C10.  The fingerprint is built from the serialisation of the start
    element and that of the end element, the empty string standing for a
    missing end element.  Two ranges that agree on both get the same
    fingerprint, and once one is marked processed [isProcessed] answers
    [true] for the other whenever a styled container is found near the
    other's start element.  Without an end element the fingerprint is the
    serialisation of the start element followed by the separator. *)
Theorem fingerprint_shared_by_equal_markup dom d r1 r2 :
  outerHTML (startElement r1) = outerHTML (startElement r2) ->
  Detector.endMarkup r1 = Detector.endMarkup r2 ->
  Detector.generateRangeKey r1 = Detector.generateRangeKey r2
  /\ (Detector.containerNear dom (startElement r2) = true ->
      Detector.isProcessed dom (Detector.markAsProcessed d r1) r2
      = (true, Detector.markAsProcessed d r1))
  /\ (endElement r1 = None ->
      Detector.generateRangeKey r1 = (outerHTML (startElement r1) ++ "-")%string).
Proof.
  intros Hs He.
  assert (Hkey : Detector.generateRangeKey r1 = Detector.generateRangeKey r2).
  { unfold Detector.generateRangeKey. now rewrite Hs, He. }
  split; [exact Hkey|]. split.
  - intros Hn. apply isProcessed_known_near; [|exact Hn].
    simpl. rewrite <- Hkey. apply elem_of_union. left. now apply elem_of_singleton.
  - intros Hnone. unfold Detector.generateRangeKey, Detector.endMarkup.
    now rewrite Hnone.
Qed.

Lemma fingerprint_shared_by_equal_markup_witness :
  eid (startElement Sample.emptyRange) <> eid (startElement Sample.twinRange)
  /\ Detector.generateRangeKey Sample.emptyRange = Detector.generateRangeKey Sample.twinRange
  /\ Detector.isProcessed Sample.twinDom
       (Detector.markAsProcessed Detector.new Sample.emptyRange) Sample.twinRange
     = (true, Detector.markAsProcessed Detector.new Sample.emptyRange).
Proof.
  split; [discriminate|].
  destruct (fingerprint_shared_by_equal_markup Sample.twinDom Detector.new
              Sample.emptyRange Sample.twinRange eq_refl eq_refl) as (Hkey & Hproc & _).
  split; [exact Hkey|]. apply Hproc. reflexivity.
Defined.

(** ** Styling *)

(** [wrapSingleRange] never yields a handle. *)
Lemma wrapSingleRange_undefined s p range index :
  snd (Styler.wrapSingleRange s p range index) = Returned None
  \/ snd (Styler.wrapSingleRange s p range index) = Threw.
Proof.
  unfold Styler.wrapSingleRange.
  destruct (Dom.hasParentNode _ _); [|now right].
  destruct (Styler.processRangeElements _ _ _ _). now left.
Qed.

Lemma wrapFrom_handles s ranges : forall index p acc,
  snd (Styler.wrapFrom s index ranges p acc) = acc.
Proof.
  induction ranges as [|range rest IH]; intros index p acc; [reflexivity|].
  simpl.
  destruct (wrapSingleRange_undefined s p range index) as [H|H];
    destruct (Styler.wrapSingleRange s p range index) as [p' outcome];
    simpl in H; subst outcome; apply IH.
Qed.

(** Whatever the styler, the page and the ranges, the result of
    [wrapThinkingBlocks] lists no container. *)
Lemma wrapThinkingBlocks_containers s p ranges :
  containers (snd (Styler.wrapThinkingBlocks s p ranges)) = [].
Proof.
  unfold Styler.wrapThinkingBlocks.
  destruct (negb (enabled (settings s))); [reflexivity|].
  pose proof (wrapFrom_handles s ranges 0 p []) as H.
  destruct (Styler.wrapFrom s 0 ranges p []) as [p' cs]. exact H.
Qed.

(** A string found by [indexOf] brings its first character along. *)
Lemma indexOf_head_occurs c p t :
  JS.includes (String c p) t = true -> occurs c t = true.
Proof.
  unfold JS.includes, JS.indexOf.
  induction t as [|a t IH]; simpl; [discriminate|].
  destruct (ascii_dec c a) as [->|Hne].
  - intros _. now rewrite Ascii.eqb_refl.
  - destruct (String.index 0 (String c p) t); [|discriminate].
    intros _. rewrite IH by reflexivity. apply orb_true_r.
Qed.

Lemma occurs_trimStart c t :
  occurs c t = true -> JS.isWhiteSpace c = true \/ occurs c (JS.trimStart t) = true.
Proof.
  induction t as [|a t IH]; simpl; [discriminate|].
  destruct (JS.isWhiteSpace a) eqn:Ea.
  - intros H. apply orb_true_iff in H as [H|H]; [|now apply IH].
    apply Ascii.eqb_eq in H. subst. now left.
  - intros H. now right.
Qed.

Lemma occurs_trimEnd c t :
  occurs c t = true -> JS.isWhiteSpace c = true \/ occurs c (JS.trimEnd t) = true.
Proof.
  induction t as [|a t IH]; simpl; [discriminate|].
  intros H. apply orb_true_iff in H as [H|H].
  - apply Ascii.eqb_eq in H. subst a.
    destruct (JS.trimEnd t); [destruct (JS.isWhiteSpace c) eqn:E; [now left|]|];
      right; simpl; now rewrite Ascii.eqb_refl.
  - destruct (IH H) as [Hw|Ho]; [now left|]. right.
    destruct (JS.trimEnd t); [discriminate|].
    simpl in *. rewrite Ho. apply orb_true_r.
Qed.

Lemma occurs_trim c t :
  occurs c t = true -> JS.isWhiteSpace c = true \/ occurs c (JS.trim t) = true.
Proof.
  intros H. unfold JS.trim.
  destruct (occurs_trimStart c t H) as [Hw|Ho]; [now left|].
  now apply occurs_trimEnd.
Qed.

(** An element whose trimmed text is a raw tag holds neither escaped
    literal: the two marker branches of the styler do not apply to it. *)
Lemma raw_tag_has_no_escaped_literal t tag needle :
  JS.trim t = tag -> occurs "&" tag = false ->
  JS.includes (String "&" needle) t = false.
Proof.
  intros Ht Htag.
  destruct (JS.includes (String "&" needle) t) eqn:E; [|reflexivity].
  apply indexOf_head_occurs, occurs_trim in E. rewrite Ht, Htag in E.
  now destruct E.
Qed.

Lemma processElement_raw_tag s count index element tag :
  JS.trim (textContent element) = tag -> occurs "&" tag = false ->
  Styler.processElement s count index element = [MarkupLine (innerHTML element)].
Proof.
  intros Ht Htag. unfold Styler.processElement.
  rewrite !(raw_tag_has_no_escaped_literal _ _ _ Ht Htag).
  now rewrite !andb_false_r.
Qed.

Lemma processElement_interior s count index element :
  index <> 0%nat -> index <> (count - 1)%nat ->
  Styler.processElement s count index element = [MarkupLine (innerHTML element)].
Proof.
  intros H0 H1. unfold Styler.processElement.
  apply Nat.eqb_neq in H0, H1. now rewrite H0, H1.
Qed.

Lemma processFrom_interior s count e tag mid : forall index dom w,
  JS.trim (textContent e) = tag -> occurs "&" tag = false ->
  index <> 0%nat -> (index + List.length mid = count - 1)%nat ->
  snd (Styler.processFrom s count index (mid ++ [e]) dom w)
  = w ++ map (fun x => MarkupLine (innerHTML x)) (mid ++ [e]).
Proof.
  induction mid as [|x mid IH]; intros index dom w Ht Htag H0 Hlen; simpl.
  - now rewrite (processElement_raw_tag _ _ _ _ _ Ht Htag).
  - simpl in Hlen. rewrite processElement_interior by lia.
    rewrite IH by (auto; lia). now rewrite <- app_assoc.
Qed.

(** The wrapper built for a range detected through the text of its
    markers: one markup line per element, no marker chip. *)
Lemma raw_markers_get_no_chip s dom start mid e :
  JS.trim (textContent start) = "<think>" ->
  JS.trim (textContent e) = "</think>" ->
  let range := mkRange start (start :: mid ++ [e]) false (Some e) in
  snd (Styler.processRangeElements s range dom [])
  = map (fun x => MarkupLine (innerHTML x)) (elements range)
  /\ chipCount (snd (Styler.processRangeElements s range dom [])) = 0%nat.
Proof.
  intros Hs He range.
  assert (Heq : snd (Styler.processRangeElements s range dom [])
                = map (fun x => MarkupLine (innerHTML x)) (elements range)).
  { unfold Styler.processRangeElements, range. simpl elements.
    cbn [Styler.processFrom].
    rewrite (processElement_raw_tag _ _ _ _ _ Hs eq_refl).
    rewrite (processFrom_interior _ _ _ _ _ _ _ _ He eq_refl);
      [reflexivity|discriminate|].
    simpl. rewrite length_app. simpl. lia. }
  split; [exact Heq|]. rewrite Heq. unfold chipCount. clear.
  generalize (elements range) as l.
  induction l as [|x l IH]; [reflexivity|exact IH].
Qed.

(** C8.  With [enabled = false], [wrapThinkingBlocks] leaves the page as it
    is and returns an empty container list, whatever the ranges. *)
Theorem wrap_disabled_is_inert s p ranges :
  enabled (settings s) = false ->
  Styler.wrapThinkingBlocks s p ranges = (p, mkResults [] 0 None)
  /\ dom (fst (Styler.wrapThinkingBlocks s p ranges)) = dom p
  /\ containers (snd (Styler.wrapThinkingBlocks s p ranges)) = [].
Proof.
  intros H. unfold Styler.wrapThinkingBlocks. rewrite H. simpl. repeat split.
Qed.

Lemma wrap_disabled_is_inert_witness :
  enabled (settings Sample.disabledStyler) = false
  /\ Styler.wrapThinkingBlocks Sample.disabledStyler
       (Sample.pageOf Sample.blockDom) [Sample.blockRange]
     = (Sample.pageOf Sample.blockDom, mkResults [] 0 None).
Proof.
  split; [reflexivity|].
  apply (wrap_disabled_is_inert Sample.disabledStyler
           (Sample.pageOf Sample.blockDom) [Sample.blockRange]).
  reflexivity.
Defined.

(** C1, the code at a failing input.  Wrapping the sample block with styling
    enabled builds a container, puts it where the start marker was and
    removes the three elements of the range, yet the returned [containers]
    list is empty: no handle of the created container is returned.  The
    list is in fact empty for every input. *)
Theorem wrap_returns_no_handle :
  let out := Styler.wrapThinkingBlocks Styler.new
               (Sample.pageOf Sample.blockDom) [Sample.blockRange] in
  dom (fst out)
  = Sample.inList
      [StyledContainer
         (Sample.builtContainer
            [MarkupLine "&lt;think&gt;"; MarkupLine "Let me reason.";
             MarkupLine "&lt;/think&gt;"])]
  /\ Dom.contains 100 (dom (fst out)) = true
  /\ forallb (fun e => negb (Dom.contains (eid e) (dom (fst out))))
       (elements Sample.blockRange) = true
  /\ containers (snd out) = []
  /\ rangeCount (snd out) = Some 1%nat
  /\ (forall s p ranges, containers (snd (Styler.wrapThinkingBlocks s p ranges)) = []).
Proof.
  cbv zeta.
  do 5 (split; [vm_compute; reflexivity|]).
  exact wrapThinkingBlocks_containers.
Qed.

(** C6, the code at a failing input.  The empty block (start and end marker
    next to each other, as the host renders them) is detected, but its
    container holds two content lines and no marker chip: the styler looks
    for the entity-escaped literal in [textContent], where a detected marker
    shows the raw tag.  Elements whose text is the escaped literal do get two
    chips and no line, but the detector never reports them. *)
Theorem empty_block_gets_no_chip :
  fst (Detector.scanDocument Sample.emptyDom Detector.new) = [Sample.emptyRange]
  /\ (let out := Styler.wrapThinkingBlocks Styler.new
                   (Sample.pageOf Sample.emptyDom) [Sample.emptyRange] in
      let w := [MarkupLine "&lt;think&gt;"; MarkupLine "&lt;/think&gt;"] in
      dom (fst out) = Sample.inList [StyledContainer (Sample.builtContainer w)]
      /\ chipCount w = 0%nat /\ lineCount w = 2%nat)
  /\ fst (Detector.scanDocument Sample.escapedDom Detector.new) = []
  /\ (let w := snd (Styler.processRangeElements Styler.new Sample.escapedRange
                      Sample.escapedDom []) in
      chipCount w = 2%nat /\ lineCount w = 0%nat).
Proof. vm_compute. repeat split. Qed.

(** ** Contrast colour *)

Lemma parseInt16_hexByte n :
  (0 <= n < 256)%Z -> JS.parseInt16 (hexByte n) = Some n.
Proof.
  intros Hn.
  assert (Hall : forallb
                   (fun k => match JS.parseInt16 (hexByte (Z.of_nat k)) with
                             | Some v => Z.eqb v (Z.of_nat k)
                             | None => false
                             end) (seq 0 256) = true)
    by (vm_compute; reflexivity).
  rewrite forallb_forall in Hall.
  specialize (Hall (Z.to_nat n)).
  rewrite Z2Nat.id in Hall by lia.
  assert (Hin : In (Z.to_nat n) (seq 0 256)) by (apply in_seq; lia).
  specialize (Hall Hin).
  destruct (JS.parseInt16 (hexByte n)) as [v|]; [|discriminate].
  apply Z.eqb_eq in Hall. now subst.
Qed.

Lemma getContrastColor_hexColor r g b :
  (0 <= r < 256)%Z -> (0 <= g < 256)%Z -> (0 <= b < 256)%Z ->
  Styler.getContrastColor (hexColor r g b) =
  if Qle_bool (inject_Z (r * 299 + g * 587 + b * 114) / 1000) 128
  then "#ffffff" else "#000000".
Proof.
  intros Hr Hg Hb. unfold Styler.getContrastColor, hexColor.
  change (JS.replace "#" "" (String "#" (hexByte r ++ hexByte g ++ hexByte b)))
    with (hexByte r ++ hexByte g ++ hexByte b)%string.
  change (JS.substr 0 2 (hexByte r ++ hexByte g ++ hexByte b)) with (hexByte r).
  change (JS.substr 2 2 (hexByte r ++ hexByte g ++ hexByte b)) with (hexByte g).
  change (JS.substr 4 2 (hexByte r ++ hexByte g ++ hexByte b)) with (hexByte b).
  now rewrite !parseInt16_hexByte.
Qed.

Lemma brightness_scaled r g b :
  (inject_Z (r * 299 + g * 587 + b * 114) / 1000 == brightness r g b)%Q.
Proof.
  unfold brightness. rewrite !inject_Z_plus, !inject_Z_mult. field.
Qed.

(** C9.  For a colour [#rrggbb], [getContrastColor] answers black when the
    brightness 0.299 r + 0.587 g + 0.114 b exceeds 128 and white otherwise;
    it answers black for [#fefefe] and white for [#010101]. *)
Theorem getContrastColor_by_brightness r g b :
  (0 <= r < 256)%Z -> (0 <= g < 256)%Z -> (0 <= b < 256)%Z ->
  ((128 < brightness r g b)%Q -> Styler.getContrastColor (hexColor r g b) = "#000000")
  /\ ((brightness r g b <= 128)%Q -> Styler.getContrastColor (hexColor r g b) = "#ffffff")
  /\ Styler.getContrastColor "#fefefe" = "#000000"
  /\ Styler.getContrastColor "#010101" = "#ffffff".
Proof.
  intros Hr Hg Hb. rewrite (getContrastColor_hexColor r g b Hr Hg Hb).
  destruct (Qle_bool (inject_Z (r * 299 + g * 587 + b * 114) / 1000) 128) eqn:E.
  - apply Qle_bool_iff in E. rewrite brightness_scaled in E.
    repeat split; try reflexivity.
    intros H. exfalso. apply (Qlt_not_le _ _ H E).
  - repeat split; try reflexivity.
    intros H. rewrite <- brightness_scaled in H.
    apply Qle_bool_iff in H. congruence.
Qed.

Lemma getContrastColor_by_brightness_witness :
  hexColor 254 254 254 = "#fefefe"
  /\ (128 < brightness 254 254 254)%Q
  /\ Styler.getContrastColor (hexColor 254 254 254) = "#000000".
Proof.
  split; [reflexivity|]. split; [reflexivity|].
  destruct (getContrastColor_by_brightness 254 254 254) as (H & _); [lia|lia|lia|].
  apply H. reflexivity.
Defined.

(** ** Scroll restoration *)

Section Restore.

Local Open Scope Q_scope.

Lemma Qlt_bool_iff a b : Monitor.Qlt_bool a b = true <-> a < b.
Proof.
  unfold Monitor.Qlt_bool. rewrite negb_true_iff. split.
  - intros H. apply Qnot_le_lt. intros Hle. apply Qle_bool_iff in Hle. congruence.
  - intros H. destruct (Qle_bool b a) eqn:E; [|reflexivity].
    apply Qle_bool_iff in E. exfalso. apply (Qlt_not_le _ _ H E).
Qed.

(** The scroll ratio lies between 0 and 1 once the anchor offset is not
    negative. *)
Lemma scrollRatio_bounds (top extent : Q) :
  0 <= top -> 0 <= Qmin 1 (top / Qmax 1 extent) <= 1.
Proof.
  intros Htop. split; [|apply Q.le_min_l].
  apply Q.min_glb; [discriminate|].
  apply Qle_shift_div_l.
  - apply Qlt_le_trans with 1; [reflexivity|apply Q.le_max_l].
  - now rewrite Qmult_0_l.
Qed.

(** The arithmetic of the anchor path on a difference of -40: between 70%
    and 100% of it. *)
Lemma anchor_adjustment_fraction sc a diff :
  0 <= scrollTop a -> diff == -40 ->
  scrollTop a - 40 <= Monitor.adjustedScrollTop sc a diff <= scrollTop a - 28.
Proof.
  intros Htop Hd.
  unfold Monitor.adjustedScrollTop, Monitor.calculateHeightAdjustmentForAnchor.
  destruct (Monitor.Qlt_bool (Qabs diff) 5) eqn:E.
  - apply Qlt_bool_iff in E. rewrite Hd in E. discriminate.
  - pose proof (scrollRatio_bounds (scrollTop a)
                  (scrollHeight sc - clientHeight sc) Htop) as [Hlo Hhi].
    set (ratio := Qmin 1 _) in *. rewrite Hd. split; lra.
Qed.

(** The arithmetic of the fallback path on a difference of -40: 80% of
    it, clamped at 0. *)
Lemma fallback_target a diff :
  diff == -40 -> Monitor.targetScrollTop a diff == Qmax 0 (scrollTop a - 32).
Proof.
  intros Hd. unfold Monitor.targetScrollTop.
  apply Q.max_compat; [reflexivity|]. rewrite Hd. lra.
Qed.

(** The difference the restoration computes when the results do list one
    container that measures 80 against 120 before. *)
Lemma listed_container_difference layout dom hm c :
  Dom.contains c dom = true ->
  totalOriginalHeight hm == 120 ->
  offsetHeight layout c + marginTop layout c + marginBottom layout c == 80 ->
  Monitor.heightDifference layout dom hm (mkResults [c] 0 (Some 1%nat)) == -40.
Proof.
  intros Hc Hold Hnew. unfold Monitor.heightDifference, Monitor.containerHeight.
  simpl. rewrite Hc, Hold. lra.
Qed.

(** After [wrapThinkingBlocks] the restoration sees no container, so the
    difference it computes is 0 whatever the layout. *)
Lemma wrapped_difference_is_zero layout dom hm s p ranges :
  Monitor.heightDifference layout dom hm (snd (Styler.wrapThinkingBlocks s p ranges)) = 0.
Proof.
  unfold Monitor.heightDifference. now rewrite wrapThinkingBlocks_containers.
Qed.

Lemma pass_pending_difference d s p layout captured layout' dom' pd :
  Monitor.passPending (Monitor.processCurrentContent d s p layout captured) = Some pd ->
  Monitor.heightDifference layout' dom' (Monitor.pendingHeights pd)
    (Monitor.pendingResults pd) = 0.
Proof.
  unfold Monitor.processCurrentContent.
  destruct (Detector.scanDocument (dom p) d) as [ranges d1].
  destruct ranges as [|r rest]; [discriminate|].
  pose proof (wrapped_difference_is_zero layout' dom'
                (Monitor.measureContentHeights layout (r :: rest)) s p (r :: rest)) as H.
  destruct (Styler.wrapThinkingBlocks s p (r :: rest)) as [p' results].
  destruct captured as [a|]; [|discriminate].
  simpl. intros Hpd. injection Hpd as <-. exact H.
Qed.

(** With a difference of 0 both paths aim at the stored offset. *)
Lemma zero_difference_targets sc a :
  Monitor.adjustedScrollTop sc a 0 == scrollTop a
  /\ Monitor.targetScrollTop a 0 == Qmax 0 (scrollTop a).
Proof.
  unfold Monitor.adjustedScrollTop, Monitor.calculateHeightAdjustmentForAnchor,
    Monitor.targetScrollTop.
  change (Monitor.Qlt_bool (Qabs 0) 5) with true.
  split; [lra|]. apply Q.max_compat; [reflexivity|lra].
Qed.

End Restore.

(** C2, the code at a failing input.  The pass converts the sample block:
    its elements measured 120px and the new container, present in the page,
    measures 80px.  The restoration nevertheless computes a height
    difference of 0, because the results of the styler list no container:
    on the anchor path it aims at the stored offset 500 itself and on the
    fallback path too, and the scroll offset stays 500.  Had the results
    listed the container, the difference would be -40.  The difference is
    0 in every pass, whatever the page and the layout. *)
Theorem pass_applies_no_height_correction :
  let pass := Monitor.processCurrentContent Detector.new Styler.new
                (Sample.pageOf Sample.blockDom) Sample.layoutBefore
                (Some Sample.rowAnchor) in
  let lost := Monitor.processCurrentContent Detector.new Styler.new
                (Sample.pageOf Sample.blockDom) Sample.layoutBefore
                (Some Sample.lostAnchor) in
  let after := dom (Monitor.passPage pass) in
  (exists pd,
      Monitor.passPending pass = Some pd
      /\ (totalOriginalHeight (Monitor.pendingHeights pd) == 120)%Q
      /\ Dom.contains 100 after = true
      /\ (Monitor.containerHeight Sample.layoutAfter after 100 == 80)%Q
      /\ containers (Monitor.pendingResults pd) = []
      /\ (Monitor.heightDifference Sample.layoutAfter after
            (Monitor.pendingHeights pd) (Monitor.pendingResults pd) == 0)%Q
      /\ (Monitor.heightDifference Sample.layoutAfter after
            (Monitor.pendingHeights pd) (mkResults [100%nat] 0 (Some 1%nat)) == -40)%Q)
  /\ Monitor.anchorPresent after Sample.rowAnchor = true
  /\ (Monitor.adjustedScrollTop Sample.scroller Sample.rowAnchor 0 == 500)%Q
  /\ (position (Monitor.settle Sample.layoutAfter after Sample.scroller
                  (Monitor.passPending pass)) == 500)%Q
  /\ Monitor.anchorPresent after Sample.lostAnchor = false
  /\ (Monitor.targetScrollTop Sample.lostAnchor 0 == 500)%Q
  /\ (position (Monitor.settle Sample.layoutAfter after Sample.scroller
                  (Monitor.passPending lost)) == 500)%Q
  /\ (forall d s p layout captured layout' dom' pd,
        Monitor.passPending (Monitor.processCurrentContent d s p layout captured)
        = Some pd ->
        Monitor.heightDifference layout' dom' (Monitor.pendingHeights pd)
          (Monitor.pendingResults pd) = 0%Q).
Proof.
  cbv zeta. split.
  - eexists. split; [reflexivity|].
    do 5 (split; [vm_compute; congruence|]). vm_compute; congruence.
  - do 6 (split; [vm_compute; congruence|]).
    exact pass_pending_difference.
Qed.

(** * Further properties of the code *)

(** ** Shape and order of the detected ranges *)

Lemma noEnd_snoc d mid x :
  noEnd d (mid ++ [x]) = noEnd d mid && negb (Detector.isEndMarker d x).
Proof.
  unfold noEnd. rewrite forallb_app. simpl. now rewrite andb_true_r.
Qed.

Lemma step_formed d st x : formed d st -> formed d (Detector.step d st x).
Proof.
  intros [Hr Hc]. destruct st as [ranges [cur|]]; simpl in Hr, Hc.
  - destruct (Hc cur eq_refl) as (mid & Hel & Hmid & Hend & Hs & Hp).
    destruct (Detector.isEndMarker d x) eqn:E.
    + rewrite (step_close _ _ _ _ E). split; simpl; [|discriminate].
      apply Forall_app. split; [exact Hr|]. constructor; [|constructor].
      exists mid, x. simpl. rewrite Hel. now repeat split.
    + rewrite (step_push _ _ _ _ E). split; simpl; [exact Hr|].
      intros c Hceq. injection Hceq as <-. exists (mid ++ [x]). simpl.
      rewrite Hel, noEnd_snoc, Hmid, E. now repeat split.
  - destruct (Detector.isStartMarker d x) eqn:E.
    + rewrite (step_open _ _ _ E). split; simpl; [exact Hr|].
      intros c Hceq. injection Hceq as <-. exists []. now repeat split.
    + rewrite (step_skip _ _ _ E). split; simpl; [exact Hr|discriminate].
Qed.

Lemma loop_formed d l : forall st, formed d st -> formed d (Detector.loop d st l).
Proof.
  induction l as [|x l IH]; intros st H; [exact H|].
  rewrite loop_cons. apply IH, step_formed, H.
Qed.

Lemma returned_ranges_are_complete_aux dom d allElements :
  Forall (wellFormedRange d) (fst (Detector.processElements dom d allElements)).
Proof.
  unfold Detector.processElements.
  pose proof (loop_formed d allElements ([], None)) as H.
  destruct (Detector.loop d ([], None) allElements) as [ranges cur].
  destruct H as [H _]; [split; [constructor|discriminate]|]. simpl in H.
  apply List.Forall_forall. intros r Hr.
  apply (filterUnprocessed_incl dom ranges d) in Hr.
  rewrite List.Forall_forall in H. exact (H r Hr).
Qed.

(** X1.  Every range a scan returns is complete: its elements are its start
    element (which passes the start-marker tests), then elements none of
    which passes the end-marker tests, then its end element (which passes
    them); it has at least two elements and is not flagged processed. *)
Theorem returned_ranges_are_complete dom d allElements :
  Forall (fun r => wellFormedRange d r /\ (2 <= List.length (elements r))%nat)
    (fst (Detector.processElements dom d allElements)).
Proof.
  eapply Forall_impl; [apply returned_ranges_are_complete_aux|].
  intros r H. split; [exact H|].
  destruct H as (mid & e & Hel & _). rewrite Hel. simpl.
  rewrite length_app. simpl. lia.
Qed.

(** X4.  Elements met while no range is open and that are not start markers
    are ignored: a list without a start marker (plain text, stray end
    markers, nothing at all) gives no range and leaves the detector as it
    is. *)
Theorem no_start_no_range dom d allElements :
  noStart d allElements = true ->
  Detector.processElements dom d allElements = ([], d).
Proof.
  intros H. unfold Detector.processElements.
  now rewrite (loop_idle _ _ _ H).
Qed.

Lemma no_start_no_range_witness :
  noStart Detector.new Cases.strayEnd = true
  /\ Detector.processElements Sample.blockDom Sample.tracking Cases.strayEnd
     = ([], Sample.tracking).
Proof.
  split; [reflexivity|].
  apply (no_start_no_range Sample.blockDom Sample.tracking Cases.strayEnd).
  reflexivity.
Defined.

Lemma step_prefix d ranges cur x :
  Detector.step d (ranges, cur) x
  = (ranges ++ fst (Detector.step d ([], cur) x), snd (Detector.step d ([], cur) x)).
Proof.
  unfold Detector.step. destruct cur as [cur|];
    repeat match goal with |- context [if ?b then _ else _] => destruct b end;
    simpl; now rewrite ?app_nil_r.
Qed.

Lemma loop_prefix d l : forall ranges cur,
  Detector.loop d (ranges, cur) l
  = (ranges ++ fst (Detector.loop d ([], cur) l), snd (Detector.loop d ([], cur) l)).
Proof.
  induction l as [|x l IH]; intros ranges cur.
  - simpl. now rewrite app_nil_r.
  - rewrite !loop_cons, step_prefix.
    destruct (Detector.step d ([], cur) x) as [pushed cur'] eqn:E. simpl.
    rewrite (IH (ranges ++ pushed)), (IH pushed). simpl. now rewrite app_assoc.
Qed.

Lemma filterUnprocessed_app dom a : forall d b,
  Detector.filterUnprocessed dom d (a ++ b)
  = (fst (Detector.filterUnprocessed dom d a)
     ++ fst (Detector.filterUnprocessed dom (snd (Detector.filterUnprocessed dom d a)) b),
     snd (Detector.filterUnprocessed dom (snd (Detector.filterUnprocessed dom d a)) b)).
Proof.
  induction a as [|r a IH]; intros d b.
  - simpl. now destruct (Detector.filterUnprocessed dom d b).
  - rewrite <- app_comm_cons, !filterUnprocessed_cons. cbv zeta.
    rewrite IH. cbn [fst snd]. now destruct (fst (Detector.isProcessed dom d r)).
Qed.

(** X2.  Blocks are detected independently: when the first part of the
    candidates ends outside any block, scanning the whole list gives the
    ranges of the first part followed by those of a scan of the second
    part run on the detector the first scan left. *)
Theorem scan_of_consecutive_parts dom d l1 l2 :
  snd (Detector.loop d ([], None) l1) = None ->
  Detector.processElements dom d (l1 ++ l2)
  = (fst (Detector.processElements dom d l1)
     ++ fst (Detector.processElements dom (snd (Detector.processElements dom d l1)) l2),
     snd (Detector.processElements dom (snd (Detector.processElements dom d l1)) l2)).
Proof.
  intros Hidle.
  destruct (Detector.loop d ([], None) l1) as [r1 c1] eqn:E1. simpl in Hidle. subst c1.
  destruct (Detector.loop d ([], None) l2) as [r2 c2] eqn:E2.
  assert (H1 : Detector.processElements dom d l1 = Detector.filterUnprocessed dom d r1)
    by (unfold Detector.processElements; now rewrite E1).
  rewrite H1. set (d1 := snd (Detector.filterUnprocessed dom d r1)).
  assert (H2 : Detector.processElements dom d1 l2 = Detector.filterUnprocessed dom d1 r2).
  { destruct (filterUnprocessed_markers dom r1 d) as [Hs He]. fold d1 in Hs, He.
    unfold Detector.processElements. now rewrite (loop_markers d d1 _ _ Hs He), E2. }
  rewrite H2. unfold Detector.processElements.
  rewrite loop_app, E1, loop_prefix, E2. cbn [fst snd app].
  apply filterUnprocessed_app.
Qed.

Lemma scan_of_consecutive_parts_witness :
  fst (Detector.processElements Sample.twinDom Detector.new
         (Cases.firstBlock ++ Cases.secondBlock))
  = fst (Detector.processElements Sample.twinDom Detector.new Cases.firstBlock)
    ++ fst (Detector.processElements Sample.twinDom Detector.new Cases.secondBlock).
Proof.
  rewrite (scan_of_consecutive_parts Sample.twinDom Detector.new
             Cases.firstBlock Cases.secondBlock); reflexivity.
Defined.

Lemma filterUnprocessed_empty dom ranges : forall d,
  processedBlocks d = ∅ -> Detector.filterUnprocessed dom d ranges = (ranges, d).
Proof.
  induction ranges as [|r rest IH]; intros d Hd; [reflexivity|].
  rewrite filterUnprocessed_cons, isProcessed_unknown by (rewrite Hd; apply not_elem_of_empty).
  simpl. now rewrite (IH d Hd).
Qed.

Lemma scan_after_clear_aux dom d :
  fst (Detector.scanDocument dom (Detector.clearProcessedBlocks d))
  = fst (Detector.loop d ([], None) (Detector.candidates dom))
  /\ snd (Detector.scanDocument dom (Detector.clearProcessedBlocks d))
     = Detector.clearProcessedBlocks d.
Proof.
  unfold Detector.scanDocument, Detector.processElements.
  rewrite (loop_markers d (Detector.clearProcessedBlocks d)) by reflexivity.
  destruct (Detector.loop d ([], None) (Detector.candidates dom)) as [ranges cur].
  now rewrite filterUnprocessed_empty.
Qed.

(** X3.  After [clearProcessedBlocks] a scan filters nothing: it returns
    every complete range of the page, also those whose styled container is
    still in place, and the processed set stays empty. *)
Theorem scan_after_clear_returns_every_range dom d :
  Detector.scanDocument dom (Detector.clearProcessedBlocks d)
  = (fst (Detector.loop d ([], None) (Detector.candidates dom)),
     Detector.clearProcessedBlocks d)
  /\ processedBlocks (snd (Detector.scanDocument dom (Detector.clearProcessedBlocks d)))
     = ∅.
Proof.
  assert (H : Detector.scanDocument dom (Detector.clearProcessedBlocks d)
              = (fst (Detector.loop d ([], None) (Detector.candidates dom)),
                 Detector.clearProcessedBlocks d)).
  { unfold Detector.scanDocument, Detector.processElements.
    rewrite (loop_markers d (Detector.clearProcessedBlocks d)) by reflexivity.
    destruct (Detector.loop d ([], None) (Detector.candidates dom)) as [ranges cur].
    now apply filterUnprocessed_empty. }
  split; [exact H|]. now rewrite H.
Qed.

Lemma loop_sublist d l : forall st seen,
  allElements (fst st) ++ match snd st with Some cur => elements cur | None => [] end
    `sublist_of` seen ->
  let st' := Detector.loop d st l in
  allElements (fst st') ++ match snd st' with Some cur => elements cur | None => [] end
    `sublist_of` seen ++ l.
Proof.
  induction l as [|x l IH]; intros st seen H.
  - simpl. now rewrite app_nil_r.
  - cbv zeta. rewrite loop_cons.
    replace (seen ++ x :: l) with ((seen ++ [x]) ++ l) by now rewrite <- app_assoc.
    apply IH. destruct st as [ranges [cur|]]; simpl in H.
    + destruct (Detector.isEndMarker d x) eqn:E.
      * rewrite (step_close _ _ _ _ E). simpl. unfold allElements in *.
        rewrite map_app, concat_app. simpl. rewrite ?app_nil_r, ?app_assoc.
        apply sublist_app; [exact H|reflexivity].
      * rewrite (step_push _ _ _ _ E). simpl.
        rewrite app_assoc. apply sublist_app; [exact H|reflexivity].
    + destruct (Detector.isStartMarker d x) eqn:E.
      * rewrite (step_open _ _ _ E). simpl.
        rewrite app_nil_r in H. apply sublist_app; [exact H|reflexivity].
      * rewrite (step_skip _ _ _ E). simpl. now apply sublist_inserts_r.
Qed.

Lemma filterUnprocessed_sublist dom ranges : forall d,
  allElements (fst (Detector.filterUnprocessed dom d ranges))
    `sublist_of` allElements ranges.
Proof.
  induction ranges as [|r rest IH]; intros d; [constructor|].
  rewrite filterUnprocessed_cons. cbv zeta. cbn [fst].
  unfold allElements in *. simpl.
  destruct (fst (Detector.isProcessed dom d r)).
  - apply sublist_inserts_l, IH.
  - simpl. apply sublist_app; [reflexivity|apply IH].
Qed.

(** X5.  The ranges a scan returns do not overlap and follow the document
    order: their elements, range after range, form a subsequence of the
    candidate list. *)
Theorem returned_ranges_in_document_order dom d allCandidates :
  allElements (fst (Detector.processElements dom d allCandidates))
    `sublist_of` allCandidates.
Proof.
  unfold Detector.processElements.
  pose proof (loop_sublist d allCandidates ([], None) []) as H. cbv zeta in H.
  destruct (Detector.loop d ([], None) allCandidates) as [ranges cur].
  etransitivity; [apply filterUnprocessed_sublist|].
  simpl in H. etransitivity; [|apply H; constructor].
  apply sublist_inserts_r. reflexivity.
Qed.

(** ** The page under the styler's mutations *)

Lemma node_nested_ind (P : node -> Prop) :
  (forall data, P (TextNode data)) ->
  (forall c, P (StyledContainer c)) ->
  (forall e kids, Forall P kids -> P (HostElement e kids)) ->
  forall n, P n.
Proof.
  intros Htext Hbox Hhost.
  refine (fix IH (n : node) : P n :=
            match n with
            | TextNode data => Htext data
            | StyledContainer c => Hbox c
            | HostElement e kids =>
                Hhost e kids
                  ((fix all (l : list node) : Forall P l :=
                      match l with
                      | [] => @List.Forall_nil node P
                      | k :: rest => @List.Forall_cons node P k rest (IH k) (all rest)
                      end) kids)
            end).
Qed.

Lemma existsb_flat_map {A B} (f : B -> bool) (g : A -> list B) (l : list A) :
  existsb f (flat_map g l) = existsb (fun a => existsb f (g a)) l.
Proof.
  induction l as [|a l IH]; [reflexivity|].
  simpl. now rewrite existsb_app, IH.
Qed.

Lemma existsb_all_false {A} (g : A -> bool) (l : list A) :
  Forall (fun x => g x = false) l -> existsb g l = false.
Proof. induction 1 as [|x l Hx _ IH]; [reflexivity|]. simpl. now rewrite Hx, IH. Qed.

Lemma existsb_false_all {A} (g : A -> bool) (l : list A) :
  existsb g l = false -> Forall (fun x => g x = false) l.
Proof.
  induction l as [|x l IH]; [constructor|]. simpl. intros H.
  apply orb_false_iff in H as [Hx Hl]. constructor; auto.
Qed.

(** [locateBelow] finds a node exactly when it occurs. *)
Lemma locateBelow_occurs id n : forall anc,
  Dom.locateBelow id anc n = None <-> occursBelow id n = false.
Proof.
  induction n as [data|c|e kids IH] using node_nested_ind; intros anc;
    [now split|now split|].
  simpl. induction IH as [|k rest Hk _ IHrest]; [now split|].
  simpl. destruct (Dom.isNode id k); [now split|]. simpl.
  destruct (Dom.locateBelow id (e :: anc) k) eqn:E.
  - split; [discriminate|]. intros H. apply orb_false_iff in H as [H _].
    apply (Hk (e :: anc)) in H. congruence.
  - apply (Hk (e :: anc)) in E. now rewrite E.
Qed.

Lemma contains_occurs id dom :
  Dom.contains id dom = occursBelow id (HostElement Dom.bodyElement dom).
Proof.
  unfold Dom.contains, Dom.locate.
  destruct (Dom.locateBelow id [] (HostElement Dom.bodyElement dom)) eqn:E.
  - destruct (occursBelow id (HostElement Dom.bodyElement dom)) eqn:O; [reflexivity|].
    apply (locateBelow_occurs id _ []) in O. congruence.
  - apply locateBelow_occurs in E. now rewrite E.
Qed.

Lemma isNode_removeBelow id j k : Dom.isNode id (Dom.removeBelow j k) = Dom.isNode id k.
Proof. now destruct k. Qed.

Lemma isNode_insertBeforeBelow id new ref k :
  Dom.isNode id (Dom.insertBeforeBelow new ref k) = Dom.isNode id k.
Proof. now destruct k. Qed.

Lemma isNode_appendWrapperBelow id c w k :
  Dom.isNode id (Dom.appendWrapperBelow c w k) = Dom.isNode id k.
Proof.
  destruct k as [data|e kids|b]; try reflexivity.
  simpl. now destruct (Nat.eqb (nodeId b) c).
Qed.

Lemma occurs_removeBelow_same id n : occursBelow id (Dom.removeBelow id n) = false.
Proof.
  induction n as [data|c|e kids IH] using node_nested_ind; try reflexivity.
  simpl. rewrite existsb_flat_map. apply existsb_all_false.
  eapply Forall_impl; [exact IH|]. intros k Hk. simpl.
  destruct (Dom.isNode id k) eqn:E; [reflexivity|].
  simpl. now rewrite isNode_removeBelow, E, Hk.
Qed.

Lemma occurs_removeBelow_absent id j n :
  occursBelow id n = false -> occursBelow id (Dom.removeBelow j n) = false.
Proof.
  induction n as [data|c|e kids IH] using node_nested_ind; try (intros; reflexivity).
  simpl. intros H. apply existsb_false_all in H.
  rewrite existsb_flat_map. apply existsb_all_false.
  rewrite List.Forall_forall in *. intros k Hin.
  specialize (H k Hin). specialize (IH k Hin). simpl in H.
  apply orb_false_iff in H as [Hn Ho].
  destruct (Dom.isNode j k); [reflexivity|].
  simpl. now rewrite isNode_removeBelow, Hn, (IH Ho).
Qed.

Lemma occurs_insertBeforeBelow_absent id c ref n :
  occursBelow id n = false -> nodeId c <> id ->
  occursBelow id (Dom.insertBeforeBelow (StyledContainer c) ref n) = false.
Proof.
  intros H Hc. revert H.
  induction n as [data|b|e kids IH] using node_nested_ind; try (intros; reflexivity).
  simpl. intros H. apply existsb_false_all in H.
  rewrite existsb_flat_map. apply existsb_all_false.
  rewrite List.Forall_forall in *. intros k Hin.
  specialize (H k Hin). specialize (IH k Hin). simpl in H.
  apply orb_false_iff in H as [Hn Ho].
  destruct (Dom.isNode ref k).
  - simpl. rewrite Hn, Ho. unfold Dom.isNode. simpl.
    apply Nat.eqb_neq in Hc. now rewrite Hc.
  - simpl. now rewrite isNode_insertBeforeBelow, Hn, (IH Ho).
Qed.

Lemma occurs_appendWrapperBelow id c w n :
  occursBelow id (Dom.appendWrapperBelow c w n) = occursBelow id n.
Proof.
  induction n as [data|b|e kids IH] using node_nested_ind; try reflexivity.
  - simpl. now destruct (Nat.eqb (nodeId b) c).
  - simpl. induction IH as [|k rest Hk _ IHrest]; [reflexivity|].
    simpl. now rewrite isNode_appendWrapperBelow, Hk, IHrest.
Qed.

Lemma contains_remove_same id dom : Dom.contains id (Dom.remove id dom) = false.
Proof.
  rewrite contains_occurs.
  exact (occurs_removeBelow_same id (HostElement Dom.bodyElement dom)).
Qed.

Lemma contains_remove_absent id j dom :
  Dom.contains id dom = false -> Dom.contains id (Dom.remove j dom) = false.
Proof.
  rewrite !contains_occurs.
  exact (occurs_removeBelow_absent id j (HostElement Dom.bodyElement dom)).
Qed.

Lemma contains_insertBefore_absent id c ref dom :
  Dom.contains id dom = false -> nodeId c <> id ->
  Dom.contains id (Dom.insertBefore (StyledContainer c) ref dom) = false.
Proof.
  rewrite !contains_occurs.
  exact (occurs_insertBeforeBelow_absent id c ref (HostElement Dom.bodyElement dom)).
Qed.

Lemma contains_appendWrapper id c w dom :
  Dom.contains id (Dom.appendWrapper c w dom) = Dom.contains id dom.
Proof.
  rewrite !contains_occurs.
  exact (occurs_appendWrapperBelow id c w (HostElement Dom.bodyElement dom)).
Qed.

Lemma elementsBelow_occurs x n :
  In x (Dom.elementsBelow n) -> occursBelow (eid x) n = true.
Proof.
  induction n as [data|c|e kids IH] using node_nested_ind; try (intros []).
  simpl. intros H. apply in_flat_map in H as (k & Hk & Hx).
  apply existsb_exists. exists k. split; [exact Hk|].
  rewrite List.Forall_forall in IH. specialize (IH k Hk).
  destruct k as [data|e' kids'|c]; try contradiction.
  destruct Hx as [->|Hx].
  - unfold Dom.isNode. simpl. now rewrite Nat.eqb_refl.
  - rewrite (IH Hx). apply orb_true_r.
Qed.

Lemma elementsBelow_removeBelow j n :
  incl (Dom.elementsBelow (Dom.removeBelow j n)) (Dom.elementsBelow n).
Proof.
  induction n as [data|c|e kids IH] using node_nested_ind; try apply incl_refl.
  simpl. intros x H. apply in_flat_map in H as (k' & Hk' & Hx).
  apply in_flat_map in Hk' as (k & Hk & Hk').
  rewrite List.Forall_forall in IH. specialize (IH k Hk).
  apply in_flat_map. exists k. split; [exact Hk|].
  destruct (Dom.isNode j k); [destruct Hk'|].
  destruct Hk' as [<-|[]].
  destruct k as [data|e' kids'|c]; try contradiction.
  destruct Hx as [->|Hx]; [now left|right; now apply IH].
Qed.

Lemma elementsBelow_insertBeforeBelow c ref n :
  incl (Dom.elementsBelow (Dom.insertBeforeBelow (StyledContainer c) ref n))
    (Dom.elementsBelow n).
Proof.
  induction n as [data|b|e kids IH] using node_nested_ind; try apply incl_refl.
  simpl. intros x H. apply in_flat_map in H as (k' & Hk' & Hx).
  apply in_flat_map in Hk' as (k & Hk & Hk').
  rewrite List.Forall_forall in IH. specialize (IH k Hk).
  apply in_flat_map. exists k. split; [exact Hk|].
  destruct (Dom.isNode ref k).
  - destruct Hk' as [<-|[<-|[]]]; [contradiction|exact Hx].
  - destruct Hk' as [<-|[]].
    destruct k as [data|e' kids'|b]; try contradiction.
    destruct Hx as [->|Hx]; [now left|right; now apply IH].
Qed.

Lemma elementsBelow_appendWrapperBelow c w n :
  Dom.elementsBelow (Dom.appendWrapperBelow c w n) = Dom.elementsBelow n.
Proof.
  induction n as [data|b|e kids IH] using node_nested_ind; try reflexivity.
  - simpl. now destruct (Nat.eqb (nodeId b) c).
  - simpl. induction IH as [|k rest Hk _ IHrest]; [reflexivity|].
    simpl. rewrite IHrest. f_equal.
    destruct k as [data|e' kids'|b]; try reflexivity.
    + now rewrite <- Hk.
    + simpl. now destruct (Nat.eqb (nodeId b) c).
Qed.

Lemma locateBelow_elements id n : forall anc loc,
  Dom.locateBelow id anc n = Some loc ->
  incl (Dom.elementsBelow (Dom.self loc)) (Dom.elementsBelow n).
Proof.
  induction n as [data|c|e kids IH] using node_nested_ind; try discriminate.
  intros anc loc. simpl.
  induction IH as [|k rest Hk _ IHrest]; [discriminate|].
  destruct (Dom.isNode id k) eqn:E.
  - intros H. injection H as <-. simpl. intros x Hx.
    apply in_or_app. left. destruct k as [data|e' kids'|c]; try contradiction.
    now right.
  - destruct (Dom.locateBelow id (e :: anc) k) eqn:L.
    + intros H. injection H as <-. intros x Hx. simpl.
      apply in_or_app. left. apply (Hk _ _ L) in Hx.
      destruct k as [data|e' kids'|c]; try contradiction. now right.
    + intros H x Hx. simpl. apply in_or_app. right. now apply (IHrest H).
Qed.

(** The candidates of a scan are elements of the page. *)
Lemma candidates_in_page dom : incl (Detector.candidates dom) (Dom.elementsOf dom).
Proof.
  unfold Detector.candidates.
  destruct (find Detector.isVirtuosoList (Dom.elementsOf dom)) as [v|].
  - unfold Dom.subtree, Dom.locate.
    destruct (Dom.locateBelow (eid v) [] (HostElement Dom.bodyElement dom)) as [loc|] eqn:L;
      simpl; [|intros x []].
    intros x Hx. apply filter_In in Hx as [Hx _].
    now apply (locateBelow_elements _ _ _ _ L).
  - intros x Hx. now apply filter_In in Hx as [Hx _].
Qed.

Lemma element_of_page_contained x dom :
  In x (Dom.elementsOf dom) -> Dom.contains (eid x) dom = true.
Proof. rewrite contains_occurs. apply elementsBelow_occurs. Qed.

(** ** What wrapping does to the page *)

Lemma processFrom_dom s count els : forall index dom w,
  fst (Styler.processFrom s count index els dom w) = removeAll els dom.
Proof.
  induction els as [|x els IH]; intros index dom w; [reflexivity|]. simpl. apply IH.
Qed.

Lemma removeAll_absent id els : forall dom,
  Dom.contains id dom = false -> Dom.contains id (removeAll els dom) = false.
Proof.
  induction els as [|x els IH]; intros dom H; [exact H|].
  simpl. apply IH, contains_remove_absent, H.
Qed.

Lemma removeAll_removes els : forall dom,
  Forall (fun x => Dom.contains (eid x) (removeAll els dom) = false) els.
Proof.
  induction els as [|x els IH]; intros dom; constructor.
  - simpl. apply removeAll_absent, contains_remove_same.
  - apply IH.
Qed.

Lemma removeAll_elements els : forall dom,
  incl (Dom.elementsOf (removeAll els dom)) (Dom.elementsOf dom).
Proof.
  induction els as [|x els IH]; intros dom; [apply incl_refl|].
  simpl. eapply incl_tran; [apply IH|].
  exact (elementsBelow_removeBelow (eid x) (HostElement Dom.bodyElement dom)).
Qed.

(** The page [wrapSingleRange] leaves, in its two outcomes. *)
Lemma wrapSingleRange_page s p range index :
  (Dom.contains (eid (startElement range)) (dom p) = false
   /\ Styler.wrapSingleRange s p range index
      = (mkPage (dom p) (S (nextNode p)) (now p), Threw))
  \/ (Dom.contains (eid (startElement range)) (dom p) = true
      /\ exists c w,
           nodeId c = nextNode p
           /\ Styler.wrapSingleRange s p range index
              = (mkPage
                   (Dom.appendWrapper (nextNode p) w
                      (removeAll (elements range)
                         (Dom.insertBefore (StyledContainer c)
                            (eid (startElement range)) (dom p))))
                   (S (nextNode p)) (now p),
                 Returned None)).
Proof.
  unfold Styler.wrapSingleRange, Dom.hasParentNode. simpl.
  destruct (Dom.contains (eid (startElement range)) (dom p)); [right|left; now split].
  split; [reflexivity|].
  unfold Styler.processRangeElements.
  match goal with
  | |- context [Styler.processFrom ?a ?b ?c ?d ?e ?f] =>
      pose proof (processFrom_dom a b d c e f) as Hd;
      destruct (Styler.processFrom a b c d e f) as [dom3 w]
  end.
  simpl in Hd. subst dom3. eexists. exists w. split; [|reflexivity]. reflexivity.
Qed.

Lemma wrapSingleRange_nextNode s p range index :
  nextNode (fst (Styler.wrapSingleRange s p range index)) = S (nextNode p).
Proof.
  destruct (wrapSingleRange_page s p range index) as [[_ ->]|[_ (c & w & _ & ->)]];
    reflexivity.
Qed.

Lemma wrapSingleRange_keeps_absent s p range index id :
  Dom.contains id (dom p) = false -> id <> nextNode p ->
  Dom.contains id (dom (fst (Styler.wrapSingleRange s p range index))) = false.
Proof.
  intros H Hid.
  destruct (wrapSingleRange_page s p range index) as [[_ ->]|[_ (c & w & Hc & ->)]];
    [exact H|].
  simpl. rewrite contains_appendWrapper. apply removeAll_absent.
  apply contains_insertBefore_absent; [exact H|congruence].
Qed.

Lemma wrapSingleRange_elements s p range index :
  incl (Dom.elementsOf (dom (fst (Styler.wrapSingleRange s p range index))))
    (Dom.elementsOf (dom p)).
Proof.
  destruct (wrapSingleRange_page s p range index) as [[_ ->]|[_ (c & w & Hc & ->)]];
    [apply incl_refl|].
  simpl. unfold Dom.elementsOf.
  change (HostElement Dom.bodyElement (Dom.appendWrapper (nextNode p) w ?d))
    with (Dom.appendWrapperBelow (nextNode p) w (HostElement Dom.bodyElement d)).
  rewrite elementsBelow_appendWrapperBelow.
  eapply incl_tran; [apply removeAll_elements|].
  exact (elementsBelow_insertBeforeBelow c _ (HostElement Dom.bodyElement (dom p))).
Qed.

Lemma wrapFrom_cons s index range rest p acc :
  Styler.wrapFrom s index (range :: rest) p acc
  = Styler.wrapFrom s (S index) rest (fst (Styler.wrapSingleRange s p range index)) acc.
Proof.
  simpl.
  destruct (wrapSingleRange_undefined s p range index) as [H|H];
    destruct (Styler.wrapSingleRange s p range index) as [p' outcome];
    simpl in H; now subst outcome.
Qed.

Lemma wrapThinkingBlocks_enabled s p ranges :
  enabled (settings s) = true ->
  Styler.wrapThinkingBlocks s p ranges
  = (fst (Styler.wrapFrom s 0 ranges p []),
     mkResults [] 0 (Some (List.length ranges))).
Proof.
  intros H. unfold Styler.wrapThinkingBlocks. rewrite H. simpl.
  pose proof (wrapFrom_handles s ranges 0 p []) as Hc.
  destruct (Styler.wrapFrom s 0 ranges p []) as [p' cs]. simpl in *. now subst cs.
Qed.




Lemma wrapped_range_leaves_the_page_aux s p range index :
  Dom.contains (eid (startElement range)) (dom p) = true ->
  snd (Styler.wrapSingleRange s p range index) = Returned None
  /\ Forall (fun x =>
               Dom.contains (eid x)
                 (dom (fst (Styler.wrapSingleRange s p range index))) = false)
       (elements range).
Proof.
  intros H.
  destruct (wrapSingleRange_page s p range index) as [[Hc _]|[_ (c & w & Hc & ->)]];
    [congruence|].
  split; [reflexivity|]. cbn [fst dom].
  eapply Forall_impl; [apply removeAll_removes|].
  intros x Hx. rewrite contains_appendWrapper. exact Hx.
Qed.

(** X7.  When the start element of a range is in the page,
    [wrapSingleRange] completes and no element of the range is left in the
    page afterwards. *)
Theorem wrapped_range_leaves_the_page s p range index :
  Dom.contains (eid (startElement range)) (dom p) = true ->
  snd (Styler.wrapSingleRange s p range index) = Returned None
  /\ Forall (fun x =>
               Dom.contains (eid x)
                 (dom (fst (Styler.wrapSingleRange s p range index))) = false)
       (elements range).
Proof. apply wrapped_range_leaves_the_page_aux. Qed.

Lemma wrapped_range_leaves_the_page_witness :
  Forall (fun x =>
            Dom.contains (eid x)
              (dom (fst (Styler.wrapSingleRange Styler.new (Sample.pageOf Sample.blockDom)
                           Sample.blockRange 0))) = false)
    (elements Sample.blockRange).
Proof.
  apply (wrapped_range_leaves_the_page Styler.new (Sample.pageOf Sample.blockDom)
           Sample.blockRange 0).
  reflexivity.
Defined.

Lemma wrapFrom_nextNode s ranges : forall index p acc,
  nextNode p <= nextNode (fst (Styler.wrapFrom s index ranges p acc)).
Proof.
  induction ranges as [|r rest IH]; intros index p acc; [simpl; lia|].
  rewrite wrapFrom_cons.
  etransitivity; [|apply IH]. rewrite wrapSingleRange_nextNode. lia.
Qed.

Lemma wrapFrom_keeps_absent s id ranges : forall index p acc,
  Dom.contains id (dom p) = false -> id < nextNode p ->
  Dom.contains id (dom (fst (Styler.wrapFrom s index ranges p acc))) = false.
Proof.
  induction ranges as [|r rest IH]; intros index p acc H Hid; [exact H|].
  rewrite wrapFrom_cons. apply IH.
  - apply wrapSingleRange_keeps_absent; [exact H|lia].
  - rewrite wrapSingleRange_nextNode. lia.
Qed.

Lemma wrapSingleRange_start_absent s p range index :
  In (startElement range) (elements range) ->
  Dom.contains (eid (startElement range))
    (dom (fst (Styler.wrapSingleRange s p range index))) = false.
Proof.
  intros Hin.
  destruct (Dom.contains (eid (startElement range)) (dom p)) eqn:E.
  - destruct (wrapped_range_leaves_the_page_aux s p range index E) as [_ H].
    rewrite List.Forall_forall in H. now apply H.
  - destruct (wrapSingleRange_page s p range index) as [[_ ->]|[Hc _]];
      [exact E|congruence].
Qed.

Lemma wrapFrom_consumes_starts s ranges : forall index p acc,
  Forall (fun r => In (startElement r) (elements r)
                   /\ eid (startElement r) < nextNode p) ranges ->
  Forall (fun r =>
            Dom.contains (eid (startElement r))
              (dom (fst (Styler.wrapFrom s index ranges p acc))) = false) ranges.
Proof.
  induction ranges as [|r rest IH]; intros index p acc H; [constructor|].
  apply Forall_cons in H as [[Hin Hid] Hrest]. rewrite wrapFrom_cons. constructor.
  - apply wrapFrom_keeps_absent.
    + now apply wrapSingleRange_start_absent.
    + rewrite wrapSingleRange_nextNode. lia.
  - apply IH. eapply Forall_impl; [exact Hrest|].
    intros r' [? ?]. split; [assumption|]. rewrite wrapSingleRange_nextNode. lia.
Qed.

(** X8.  With styling enabled, once [wrapThinkingBlocks] has gone through a
    batch, the start element of every range of the batch is out of the page
    (removed by its own wrap, or already gone when its turn came), provided
    each range lists its start element among its elements and the element
    identities are older than the nodes the styler creates. *)
Theorem wrap_removes_every_start_element s p ranges :
  enabled (settings s) = true ->
  Forall (fun r => In (startElement r) (elements r)
                   /\ eid (startElement r) < nextNode p) ranges ->
  Forall (fun r =>
            Dom.contains (eid (startElement r))
              (dom (fst (Styler.wrapThinkingBlocks s p ranges))) = false) ranges.
Proof.
  intros He H. rewrite (wrapThinkingBlocks_enabled _ _ _ He). simpl.
  now apply wrapFrom_consumes_starts.
Qed.

Lemma wrap_removes_every_start_element_witness :
  Forall (fun r =>
            Dom.contains (eid (startElement r))
              (dom (fst (Styler.wrapThinkingBlocks Styler.new
                           (Sample.pageOf Sample.twinDom)
                           [Sample.emptyRange; Sample.twinRange]))) = false)
    [Sample.emptyRange; Sample.twinRange].
Proof.
  apply (wrap_removes_every_start_element Styler.new (Sample.pageOf Sample.twinDom)
           [Sample.emptyRange; Sample.twinRange]).
  - reflexivity.
  - repeat constructor; simpl; lia.
Defined.

Lemma wrapFrom_elements s ranges : forall index p acc,
  incl (Dom.elementsOf (dom (fst (Styler.wrapFrom s index ranges p acc))))
    (Dom.elementsOf (dom p)).
Proof.
  induction ranges as [|r rest IH]; intros index p acc; [apply incl_refl|].
  rewrite wrapFrom_cons. eapply incl_tran; [apply IH|apply wrapSingleRange_elements].
Qed.

(** X9.  [wrapThinkingBlocks] only takes host elements away: every host
    element of the page it leaves was an element of the page it was given,
    with the same readings. *)
Theorem wrap_adds_no_host_element s p ranges :
  incl (Dom.elementsOf (dom (fst (Styler.wrapThinkingBlocks s p ranges))))
    (Dom.elementsOf (dom p)).
Proof.
  unfold Styler.wrapThinkingBlocks.
  destruct (negb (enabled (settings s))); [apply incl_refl|].
  pose proof (wrapFrom_elements s ranges 0 p []) as H.
  now destruct (Styler.wrapFrom s 0 ranges p []).
Qed.

Lemma scanned_ranges_in_page dom d r :
  In r (fst (Detector.scanDocument dom d)) ->
  In (startElement r) (elements r)
  /\ incl (elements r) (Dom.elementsOf dom).
Proof.
  intros Hr. unfold Detector.scanDocument in Hr. split.
  - pose proof (returned_ranges_are_complete_aux dom d (Detector.candidates dom)) as H.
    rewrite List.Forall_forall in H. destruct (H r Hr) as (mid & e & Hel & _).
    rewrite Hel. now left.
  - unfold Detector.processElements in Hr.
    pose proof (loop_ranges_within d (Detector.candidates dom)) as H.
    destruct (Detector.loop d ([], None) (Detector.candidates dom)) as [ranges cur].
    apply (filterUnprocessed_incl dom ranges d) in Hr.
    rewrite List.Forall_forall in H. simpl in H.
    eapply incl_tran; [apply (H r Hr)|apply candidates_in_page].
Qed.

(** What a pass returns, in terms of the scan and of the wrap. *)
Lemma pass_shape d s p layout captured :
  let pass := Monitor.processCurrentContent d s p layout captured in
  let ranges := fst (Detector.scanDocument (dom p) d) in
  Monitor.passRanges pass = ranges
  /\ Monitor.passDetector pass
     = Detector.markAll (snd (Detector.scanDocument (dom p) d)) ranges
  /\ (ranges <> [] ->
      Monitor.passPage pass = fst (Styler.wrapThinkingBlocks s p ranges))
  /\ (ranges = [] -> Monitor.passPage pass = p /\ Monitor.passPending pass = None).
Proof.
  cbv zeta. unfold Monitor.processCurrentContent.
  destruct (Detector.scanDocument (dom p) d) as [ranges d1]. cbn [fst snd].
  destruct ranges as [|r0 rest]; [repeat split; congruence|].
  destruct (Styler.wrapThinkingBlocks s p (r0 :: rest)) as [p' results].
  repeat split; try reflexivity; discriminate.
Qed.

(** X10.  No block is wrapped twice.  After a pass with styling enabled, a
    scan of the page the pass left, by a detector in any state, returns no
    range that starts at the start element of a range the pass converted,
    provided the identities of the page's elements are older than the nodes
    the styler creates. *)
Theorem pass_never_returns_a_converted_start d s p layout captured d' r r' :
  enabled (settings s) = true ->
  Forall (fun x => eid x < nextNode p) (Dom.elementsOf (dom p)) ->
  let pass := Monitor.processCurrentContent d s p layout captured in
  In r (Monitor.passRanges pass) ->
  In r' (fst (Detector.scanDocument (dom (Monitor.passPage pass)) d')) ->
  eid (startElement r') <> eid (startElement r).
Proof.
  intros He Hfresh pass.
  destruct (pass_shape d s p layout captured) as (Hranges & _ & Hpage & _).
  fold pass in Hranges, Hpage. rewrite Hranges. intros Hr Hr'.
  set (ranges := fst (Detector.scanDocument (dom p) d)) in *.
  rewrite Hpage in Hr' by (intros E; rewrite E in Hr; destruct Hr).
  assert (Hgone : Dom.contains (eid (startElement r))
                    (dom (fst (Styler.wrapThinkingBlocks s p ranges))) = false).
  { rewrite (wrapThinkingBlocks_enabled _ _ _ He). cbn [fst].
    assert (Hall : Forall (fun x => In (startElement x) (elements x)
                                    /\ eid (startElement x) < nextNode p) ranges).
    { apply List.Forall_forall. intros x Hx.
      destruct (scanned_ranges_in_page _ _ _ Hx) as [Hin Hin_page].
      split; [exact Hin|]. rewrite List.Forall_forall in Hfresh.
      apply Hfresh, Hin_page, Hin. }
    pose proof (wrapFrom_consumes_starts s ranges 0 p [] Hall) as H.
    rewrite List.Forall_forall in H. exact (H r Hr). }
  destruct (scanned_ranges_in_page _ _ _ Hr') as [Hin' Hpage'].
  pose proof (element_of_page_contained _ _ (Hpage' _ Hin')) as Hthere.
  intros Heq. rewrite Heq in Hthere. congruence.
Qed.

Lemma pass_never_returns_a_converted_start_witness :
  let pass := Monitor.processCurrentContent Detector.new Styler.new
                (Sample.pageOf Sample.blockDom) Sample.layoutBefore None in
  Monitor.passRanges pass = [Sample.blockRange]
  /\ forall r', In r' (fst (Detector.scanDocument (dom (Monitor.passPage pass))
                              Detector.new)) ->
                eid (startElement r') <> eid (startElement Sample.blockRange).
Proof.
  split; [reflexivity|]. intros r' Hr'.
  apply (pass_never_returns_a_converted_start Detector.new Styler.new
           (Sample.pageOf Sample.blockDom) Sample.layoutBefore None Detector.new
           Sample.blockRange r').
  - reflexivity.
  - repeat constructor; simpl; lia.
  - now left.
  - exact Hr'.
Defined.

(** ** Content of a container *)

Lemma chipCount_app a b : chipCount (a ++ b) = (chipCount a + chipCount b)%nat.
Proof. unfold chipCount. now rewrite List.filter_app, length_app. Qed.

Lemma chipCount_markup (els : list Element) :
  chipCount (map (fun x => MarkupLine (innerHTML x)) els) = 0%nat.
Proof. induction els as [|x els IH]; [reflexivity|exact IH]. Qed.

Lemma processElement_chips s count index element :
  (chipCount (Styler.processElement s count index element) <= 1)%nat.
Proof.
  unfold Styler.processElement.
  repeat match goal with |- context [if ?b then _ else _] => destruct b end;
    unfold chipCount; simpl; lia.
Qed.

Lemma processFrom_wrapper s count last mid : forall index dom w,
  index <> 0%nat -> (index + List.length mid = count - 1)%nat ->
  snd (Styler.processFrom s count index (mid ++ [last]) dom w)
  = w ++ map (fun x => MarkupLine (innerHTML x)) mid
      ++ Styler.processElement s count (count - 1) last.
Proof.
  induction mid as [|x mid IH]; intros index dom w H0 Hlen; simpl.
  - simpl in Hlen. rewrite Nat.add_0_r in Hlen. now subst.
  - simpl in Hlen. rewrite processElement_interior by lia.
    rewrite IH by lia. now rewrite <- app_assoc.
Qed.

(** X11.  In the wrapper built for a range of at least two elements, every
    element strictly between the first and the last becomes one content
    line holding its inner markup unchanged, in order, between what the
    first and the last element give; the wrapper holds at most two marker
    chips. *)
Theorem interior_elements_become_markup_lines s dom range first mid last :
  elements range = first :: mid ++ [last] ->
  let count := List.length (elements range) in
  let wrapper := snd (Styler.processRangeElements s range dom []) in
  wrapper
  = Styler.processElement s count 0 first
    ++ map (fun x => MarkupLine (innerHTML x)) mid
    ++ Styler.processElement s count (count - 1) last
  /\ (chipCount wrapper <= 2)%nat.
Proof.
  intros Hel count wrapper.
  assert (Heq : wrapper
                = Styler.processElement s count 0 first
                  ++ map (fun x => MarkupLine (innerHTML x)) mid
                  ++ Styler.processElement s count (count - 1) last).
  { subst wrapper count. unfold Styler.processRangeElements. rewrite Hel.
    cbn [Styler.processFrom]. rewrite processFrom_wrapper; [reflexivity|discriminate|].
    simpl. rewrite length_app. simpl. lia. }
  split; [exact Heq|]. rewrite Heq, !chipCount_app, chipCount_markup.
  pose proof (processElement_chips s count 0 first).
  pose proof (processElement_chips s count (count - 1) last). lia.
Qed.

Lemma interior_elements_become_markup_lines_witness :
  snd (Styler.processRangeElements Styler.new Cases.chattyRange Sample.blockDom [])
  = Styler.processElement Styler.new 3 0 Cases.chattyStart
    ++ [MarkupLine "Let me reason."]
    ++ Styler.processElement Styler.new 3 2 Cases.chattyEnd.
Proof.
  destruct (interior_elements_become_markup_lines Styler.new Sample.blockDom
              Cases.chattyRange Cases.chattyStart [Sample.middleDiv] Cases.chattyEnd)
    as [H _]; [reflexivity|exact H].
Defined.

Lemma indexOf_after_plain c (needle before rest : string) :
  occurs c before = false ->
  JS.indexOf (String c needle) (before ++ String c needle ++ rest)%string
  = Some (String.length before).
Proof.
  unfold JS.indexOf. induction before as [|a before IH]; intros H.
  - simpl. destruct (ascii_dec c c) as [_|Hn]; [|congruence].
    assert (Hp : String.prefix needle (needle ++ rest)%string = true).
    { clear. induction needle as [|x needle IH]; simpl; [now destruct rest|].
      destruct (ascii_dec x x); [exact IH|congruence]. }
    now rewrite Hp.
  - simpl in H. apply orb_false_iff in H as [Ha Hb].
    simpl. destruct (ascii_dec c a) as [->|Hn].
    + rewrite Ascii.eqb_refl in Ha. discriminate.
    + now rewrite (IH Hb).
Qed.




(** ** Where the container ends up *)

Lemma locateBelow_ancestors id n : forall anc loc,
  Dom.locateBelow id anc n = Some loc ->
  exists e kids path, n = HostElement e kids /\ Dom.ancestors loc = path ++ e :: anc.
Proof.
  induction n as [data|c|e kids IH] using node_nested_ind; try discriminate.
  intros anc loc H. exists e, kids.
  cut (exists path, Dom.ancestors loc = path ++ e :: anc).
  { intros [path Hp]. now exists path. }
  simpl in H. revert H.
  induction IH as [|k rest Hk _ IHrest]; [discriminate|].
  destruct (Dom.isNode id k).
  - intros H. injection H as <-. now exists [].
  - destruct (Dom.locateBelow id (e :: anc) k) eqn:L.
    + intros H. injection H as <-.
      destruct (Hk _ _ L) as (e' & kids' & path & _ & Hp).
      exists (path ++ [e']). rewrite Hp. now rewrite <- app_assoc.
    + exact IHrest.
Qed.

Lemma isNode_other id j k : Dom.isNode id k = true -> j <> id -> Dom.isNode j k = false.
Proof.
  unfold Dom.isNode. destruct (Dom.nodeKey k) as [key|]; [|discriminate].
  intros H Hj. apply Nat.eqb_eq in H. subst. now apply Nat.eqb_neq.
Qed.

Lemma insertBeforeBelow_absent new ref n :
  occursBelow ref n = false -> Dom.insertBeforeBelow new ref n = n.
Proof.
  induction n as [data|c|e kids IH] using node_nested_ind; try reflexivity.
  simpl. intros H. f_equal. revert H.
  induction IH as [|k rest Hk _ IHrest]; [reflexivity|].
  simpl. intros H. apply orb_false_iff in H as [Hk' Hrest].
  apply orb_false_iff in Hk' as [Hn Ho].
  rewrite Hn. simpl. now rewrite (Hk Ho), (IHrest Hrest).
Qed.

(** The container inserted before [ref] sits under the ancestors of
    [ref]. *)
Lemma locateBelow_insertBeforeBelow c ref n : forall anc loc,
  Dom.locateBelow ref anc n = Some loc ->
  occursBelow (nodeId c) n = false ->
  exists fol,
    Dom.locateBelow (nodeId c) anc (Dom.insertBeforeBelow (StyledContainer c) ref n)
    = Some (Dom.mkLocation (Dom.ancestors loc) (StyledContainer c) fol).
Proof.
  induction n as [data|b|e kids IH] using node_nested_ind; try discriminate.
  intros anc loc. simpl.
  induction IH as [|k rest Hk _ IHrest]; [discriminate|].
  intros H Ho. apply orb_false_iff in Ho as [Hk' Hrest].
  apply orb_false_iff in Hk' as [Hn Hb].
  simpl. destruct (Dom.isNode ref k) eqn:E.
  - injection H as <-. simpl. unfold Dom.isNode at 1. simpl.
    rewrite Nat.eqb_refl. eexists. reflexivity.
  - simpl. rewrite isNode_insertBeforeBelow, Hn.
    destruct (Dom.locateBelow ref (e :: anc) k) eqn:L.
    + injection H as <-. destruct (Hk _ _ L Hb) as [fol ->]. eexists. reflexivity.
    + apply locateBelow_occurs in L. rewrite (insertBeforeBelow_absent _ _ _ L).
      apply (locateBelow_occurs _ _ (e :: anc)) in Hb. rewrite Hb.
      now apply IHrest.
Qed.

(** Removing a node that is neither [c] nor one of its ancestors leaves
    [c] under the same ancestors. *)
Lemma locateBelow_removeBelow c j n : forall anc loc,
  Dom.locateBelow c anc n = Some loc -> j <> c ->
  Forall (fun a => eid a <> j) (Dom.ancestors loc) ->
  exists fol,
    Dom.locateBelow c anc (Dom.removeBelow j n)
    = Some (Dom.mkLocation (Dom.ancestors loc) (Dom.removeBelow j (Dom.self loc)) fol).
Proof.
  induction n as [data|b|e kids IH] using node_nested_ind; try discriminate.
  intros anc loc. simpl.
  induction IH as [|k rest Hk _ IHrest]; [discriminate|].
  intros H Hj Hanc. simpl.
  destruct (Dom.isNode c k) eqn:E.
  - injection H as <-. rewrite (isNode_other _ _ _ E Hj). simpl.
    rewrite isNode_removeBelow, E. eexists. reflexivity.
  - destruct (Dom.locateBelow c (e :: anc) k) eqn:L.
    + injection H as <-.
      destruct (locateBelow_ancestors _ _ _ _ L) as (e' & kids' & path & -> & Hp).
      assert (He' : eid e' <> j).
      { rewrite List.Forall_forall in Hanc. apply Hanc. rewrite Hp.
        apply in_or_app. right. now left. }
      assert (J : Dom.isNode j (HostElement e' kids') = false)
        by (unfold Dom.isNode; simpl; now apply Nat.eqb_neq).
      rewrite J. cbn [app]. rewrite isNode_removeBelow, E.
      destruct (Hk _ _ L Hj Hanc) as [fol ->]. eexists. reflexivity.
    + destruct (Dom.isNode j k) eqn:J.
      * simpl. now apply IHrest.
      * simpl. rewrite isNode_removeBelow, E.
        apply locateBelow_occurs in L.
        apply (occurs_removeBelow_absent c j) in L.
        apply (locateBelow_occurs _ _ (e :: anc)) in L. rewrite L.
        now apply IHrest.
Qed.

(** Appending the content wrapper fills the container where it sits. *)
Lemma locateBelow_appendWrapperBelow c w n : forall anc loc,
  Dom.locateBelow (nodeId c) anc n = Some loc ->
  Dom.self loc = StyledContainer c ->
  exists fol,
    Dom.locateBelow (nodeId c) anc (Dom.appendWrapperBelow (nodeId c) w n)
    = Some (Dom.mkLocation (Dom.ancestors loc)
              (StyledContainer
                 (mkContainer (nodeId c) (c_className c) (c_id c) (c_style c) (Some w)))
              fol).
Proof.
  induction n as [data|b|e kids IH] using node_nested_ind; try discriminate.
  intros anc loc. simpl.
  induction IH as [|k rest Hk _ IHrest]; [discriminate|].
  intros H Hself. simpl. rewrite isNode_appendWrapperBelow.
  destruct (Dom.isNode (nodeId c) k) eqn:E.
  - injection H as <-. simpl in Hself. subst k. simpl.
    rewrite Nat.eqb_refl. eexists. reflexivity.
  - destruct (Dom.locateBelow (nodeId c) (e :: anc) k) eqn:L.
    + injection H as <-. destruct (Hk _ _ L Hself) as [fol ->]. eexists. reflexivity.
    + apply locateBelow_occurs in L.
      rewrite <- (occurs_appendWrapperBelow (nodeId c) (nodeId c) w) in L.
      apply (locateBelow_occurs _ _ (e :: anc)) in L. rewrite L.
      now apply IHrest.
Qed.

Lemma locate_removeAll c box els : forall dom anc fol,
  Dom.locate c dom = Some (Dom.mkLocation anc (StyledContainer box) fol) ->
  Forall (fun x => eid x <> c /\ Forall (fun a => eid a <> eid x) anc) els ->
  exists fol',
    Dom.locate c (removeAll els dom)
    = Some (Dom.mkLocation anc (StyledContainer box) fol').
Proof.
  induction els as [|x els IH]; intros dom anc fol H Hels.
  - exists fol. exact H.
  - inversion Hels as [|x' els' [Hx Hanc] Hrest]; subst.
    destruct (locateBelow_removeBelow c (eid x) _ [] _ H Hx Hanc) as [fol1 H1].
    cbn [Dom.ancestors Dom.self Dom.removeBelow] in H1.
    change (removeAll (x :: els) dom) with (removeAll els (Dom.remove (eid x) dom)).
    exact (IH _ _ _ H1 Hrest).
Qed.

Lemma processFrom_wrapper_any_page s count els : forall index dom dom' w,
  snd (Styler.processFrom s count index els dom w)
  = snd (Styler.processFrom s count index els dom' w).
Proof.
  induction els as [|x els IH]; intros index dom dom' w; [reflexivity|]. simpl. apply IH.
Qed.

(** X25.  When the start element of a range is in the page and no element
    of the range is one of its ancestors, [wrapSingleRange] leaves the new
    container in the page under the ancestors the start element had: an
    element with the container class, the identifier made of the index and
    the time, the styles of the current settings, and the content wrapper
    built from the range. *)
Theorem container_ends_up_under_the_parent_of_the_start s p range index loc :
  Dom.locate (eid (startElement range)) (dom p) = Some loc ->
  Dom.contains (nextNode p) (dom p) = false ->
  Forall (fun x => eid x <> nextNode p
                   /\ Forall (fun a => eid a <> eid x) (Dom.ancestors loc))
    (elements range) ->
  exists fol,
    Dom.locate (nextNode p) (dom (fst (Styler.wrapSingleRange s p range index)))
    = Some (Dom.mkLocation (Dom.ancestors loc)
              (StyledContainer
                 (mkContainer (nextNode p) (containerClass s)
                    ("think-box-" ++ JS.showNat index ++ "-" ++ JS.showN (now p))%string
                    (Styler.applyContainerStyles s)
                    (Some (snd (Styler.processRangeElements s range (dom p) [])))))
              fol).
Proof.
  intros Hloc Hfresh Hels.
  unfold Styler.wrapSingleRange, Dom.hasParentNode, Dom.contains. cbn [dom nextNode now].
  rewrite Hloc.
  set (box := mkContainer (nextNode p) (containerClass s)
                ("think-box-" ++ JS.showNat index ++ "-" ++ JS.showN (now p))%string
                (Styler.applyContainerStyles s) None).
  rewrite contains_occurs in Hfresh.
  destruct (locateBelow_insertBeforeBelow box (eid (startElement range)) _ [] loc Hloc Hfresh)
    as [fol1 H1].
  unfold Styler.processRangeElements.
  rewrite (processFrom_wrapper_any_page s _ (elements range) 0 (dom p)
             (Dom.insertBefore (StyledContainer box) (eid (startElement range)) (dom p)) []).
  destruct (Styler.processFrom s (List.length (elements range)) 0 (elements range)
              (Dom.insertBefore (StyledContainer box) (eid (startElement range)) (dom p)) [])
    as [dom3 wrapper] eqn:P.
  pose proof (processFrom_dom s (List.length (elements range)) (elements range) 0
                (Dom.insertBefore (StyledContainer box) (eid (startElement range)) (dom p)) [])
    as Hd.
  rewrite P in Hd. cbn [fst] in Hd. cbn [fst snd dom]. subst dom3.
  assert (Hels' : Forall (fun x => eid x <> nodeId box
                                   /\ Forall (fun a => eid a <> eid x) (Dom.ancestors loc))
                    (elements range)) by exact Hels.
  destruct (locate_removeAll (nodeId box) box (elements range) _ _ _ H1 Hels') as [fol2 H2].
  exact (locateBelow_appendWrapperBelow box wrapper _ [] _ H2 eq_refl).
Qed.

Lemma container_ends_up_under_the_parent_of_the_start_witness :
  exists fol,
    Dom.locate 100
      (dom (fst (Styler.wrapSingleRange Styler.new (Sample.pageOf Sample.blockDom)
                   Sample.blockRange 0)))
    = Some (Dom.mkLocation [Sample.row; Sample.itemList; Dom.bodyElement]
              (StyledContainer
                 (mkContainer 100 "think-inside-box-container"
                    ("think-box-" ++ JS.showNat 0 ++ "-" ++ JS.showN 1700000000000)%string
                    (Styler.applyContainerStyles Styler.new)
                    (Some (snd (Styler.processRangeElements Styler.new Sample.blockRange
                                  Sample.blockDom [])))))
              fol).
Proof.
  apply (container_ends_up_under_the_parent_of_the_start Styler.new
           (Sample.pageOf Sample.blockDom) Sample.blockRange 0 Cases.startLocation).
  - reflexivity.
  - reflexivity.
  - repeat constructor; simpl; lia.
Defined.

(** ** Colours: the page and the preview of the popup *)

Lemma replace_leading_hash (digits : string) :
  JS.replace "#" "" (String "#" digits) = digits.
Proof.
  unfold JS.replace.
  pose proof (indexOf_after_plain "#" "" "" digits eq_refl) as H.
  change ("" ++ "#" ++ digits)%string with (String "#" digits) in H.
  rewrite H. reflexivity.
Qed.

Lemma contrast_color_parity (digits : string) :
  Popup.getContrastColor (String "#" digits)
  = Styler.getContrastColor (String "#" digits).
Proof.
  unfold Popup.getContrastColor, Styler.getContrastColor.
  rewrite replace_leading_hash. reflexivity.
Qed.

(** X13.  On every colour string that begins with [#], the
    [getContrastColor] of the popup (which skips the first character) and
    that of the styler (which removes the first [#]) give the same
    answer. *)
Theorem contrast_color_same_in_popup_and_page (digits : string) :
  Popup.getContrastColor (String "#" digits)
  = Styler.getContrastColor (String "#" digits).
Proof. apply contrast_color_parity. Qed.

(** X14.  The preview of the popup shows the colours the page gets: for
    every theme, with the form values as settings and a marker colour that
    begins with [#], the background, border colour and text colour of the
    preview box and the background and text colour of its marker chips are
    those the styler gives a container and its chips. *)
Theorem preview_shows_page_colors s (digits : string) :
  enabled (settings s) = true ->
  markerColor (settings s) = String "#" digits ->
  exists pv,
    Popup.updatePreview (settings s) = Some pv
    /\ pv_background pv = cs_background (Styler.applyContainerStyles s)
    /\ pv_borderColor pv = cs_borderColor (Styler.applyContainerStyles s)
    /\ pv_color pv = cs_color (Styler.applyContainerStyles s)
    /\ pv_markerBackground pv = ms_backgroundColor (Styler.applyMarkerStyles s)
    /\ pv_markerColor pv = ms_color (Styler.applyMarkerStyles s).
Proof.
  intros He Hm.
  unfold Popup.updatePreview, Styler.applyContainerStyles, Styler.applyMarkerStyles.
  rewrite He. simpl.
  destruct (String.eqb (theme (settings s)) "dark");
    [eexists; repeat split; reflexivity|].
  destruct (String.eqb (theme (settings s)) "minimal");
    [eexists; repeat split; reflexivity|].
  destruct (String.eqb (theme (settings s)) "custom");
    [|eexists; repeat split; reflexivity].
  eexists. split; [reflexivity|]. simpl. repeat split.
  rewrite Hm. apply contrast_color_parity.
Qed.

Lemma preview_shows_page_colors_witness :
  exists pv,
    Popup.updatePreview Cases.customForm = Some pv
    /\ pv_markerColor pv = ms_color (Styler.applyMarkerStyles Cases.customStyler)
    /\ pv_markerColor pv = "#000000".
Proof.
  destruct (preview_shows_page_colors Cases.customStyler "fefefe" eq_refl eq_refl)
    as (pv & Hpv & _ & _ & _ & _ & Hc).
  exists pv. split; [exact Hpv|]. split; [exact Hc|]. rewrite Hc. reflexivity.
Defined.

Lemma indexOf_absent c (s : string) :
  occurs c s = false -> JS.indexOf (String c EmptyString) s = None.
Proof.
  unfold JS.indexOf. induction s as [|a s IH]; [reflexivity|].
  simpl. intros H. apply orb_false_iff in H as [Ha Hs].
  destruct (ascii_dec c a) as [->|Hn].
  - rewrite Ascii.eqb_refl in Ha. discriminate.
  - now rewrite (IH Hs).
Qed.

(** X15.  The leading [#] is optional for the styler: a colour written
    without any [#] gets the answer of the same colour written with a
    leading [#]. *)
Theorem contrast_color_hash_is_optional (digits : string) :
  occurs "#" digits = false ->
  Styler.getContrastColor digits = Styler.getContrastColor (String "#" digits).
Proof.
  intros H. unfold Styler.getContrastColor.
  rewrite replace_leading_hash.
  unfold JS.replace. now rewrite (indexOf_absent _ _ H).
Qed.

Lemma contrast_color_hash_is_optional_witness :
  Styler.getContrastColor "fefefe" = Styler.getContrastColor "#fefefe".
Proof. apply (contrast_color_hash_is_optional "fefefe"). reflexivity. Defined.

(** X16.  A colour at least as bright in each component keeps black text:
    if [getContrastColor] answers black for [#rrggbb], it answers black for
    every colour whose red, green and blue components are not smaller. *)
Theorem contrast_color_is_monotone r g b r' g' b' :
  (0 <= r <= r')%Z -> (r' < 256)%Z ->
  (0 <= g <= g')%Z -> (g' < 256)%Z ->
  (0 <= b <= b')%Z -> (b' < 256)%Z ->
  Styler.getContrastColor (hexColor r g b) = "#000000" ->
  Styler.getContrastColor (hexColor r' g' b') = "#000000".
Proof.
  intros Hr Hr' Hg Hg' Hb Hb'.
  rewrite !getContrastColor_hexColor by lia.
  destruct (Qle_bool (inject_Z (r * 299 + g * 587 + b * 114) / 1000) 128) eqn:E;
    [discriminate|]. intros _.
  destruct (Qle_bool (inject_Z (r' * 299 + g' * 587 + b' * 114) / 1000) 128) eqn:E';
    [|reflexivity].
  apply Qle_bool_iff in E'.
  assert (Hle : (inject_Z (r * 299 + g * 587 + b * 114) / 1000
                 <= inject_Z (r' * 299 + g' * 587 + b' * 114) / 1000)%Q).
  { apply Qmult_le_compat_r; [|discriminate].
    rewrite <- Zle_Qle. lia. }
  assert (E2 : Qle_bool (inject_Z (r * 299 + g * 587 + b * 114) / 1000) 128 = true)
    by (apply Qle_bool_iff; eapply Qle_trans; eassumption).
  congruence.
Qed.

Lemma contrast_color_is_monotone_witness :
  Styler.getContrastColor (hexColor 200 200 200) = "#000000"
  /\ Styler.getContrastColor (hexColor 201 255 200) = "#000000".
Proof.
  split; [reflexivity|].
  apply (contrast_color_is_monotone 200 200 200 201 255 200); try lia.
  reflexivity.
Defined.

(** ** Scroll compensation *)

Section Compensation.

Local Open Scope Q_scope.






Lemma scrollToPosition_nonneg sc target : 0 <= position (Monitor.scrollToPosition sc target).
Proof. simpl. apply Q.le_max_l. Qed.

(** X19.  The height-adjusted restoration never leaves a negative scroll
    offset: whichever path it takes, it either keeps the current offset
    (when its target is within 5px of it) or assigns its target clamped at
    0. *)
Theorem restore_keeps_offset_non_negative layout dom sc a hm results :
  0 <= position sc ->
  0 <= position (Monitor.performHeightAdjustedRestore layout dom sc a hm results)
  /\ (Monitor.performHeightAdjustedRestore layout dom sc a hm results = sc
      \/ exists target,
           5 < Qabs (target - position sc)
           /\ Monitor.performHeightAdjustedRestore layout dom sc a hm results
              = Monitor.scrollToPosition sc target).
Proof.
  intros Hpos.
  unfold Monitor.performHeightAdjustedRestore, Monitor.performAnchorBasedRestore,
    Monitor.performHeightBasedRestore. cbv zeta.
  set (diff := Monitor.heightDifference layout dom hm results).
  destruct (Monitor.anchorPresent dom a).
  - set (target := Monitor.adjustedScrollTop sc a diff).
    destruct (Monitor.Qlt_bool 5 (Qabs (target - position sc))) eqn:E.
    + apply Qlt_bool_iff in E. split; [apply scrollToPosition_nonneg|].
      right. exists target. now split.
    + split; [exact Hpos|now left].
  - set (target := Monitor.targetScrollTop a diff).
    destruct (Monitor.Qlt_bool 5 (Qabs (target - position sc))) eqn:E.
    + apply Qlt_bool_iff in E. split; [apply scrollToPosition_nonneg|].
      right. exists target. now split.
    + split; [exact Hpos|now left].
Qed.

Lemma restore_keeps_offset_non_negative_witness :
  0 <= position
         (Monitor.performHeightAdjustedRestore Sample.layoutAfter Sample.blockDom
            (mkScroll 500 3000 800) (mkAnchor 10 None 0) (mkHeights 120 [120])
            (mkResults [] 0 (Some 1%nat))).
Proof.
  destruct (restore_keeps_offset_non_negative Sample.layoutAfter Sample.blockDom
              (mkScroll 500 3000 800) (mkAnchor 10 None 0) (mkHeights 120 [120])
              (mkResults [] 0 (Some 1%nat))) as [H _]; [discriminate|exact H].
Defined.

(** X20.  [restoreScrollPosition] does not move the scroll offset while the
    anchor element is in the page: the difference it computes is 0 whatever
    the geometry.  When the anchor element has left the page it assigns the
    stored offset, and without an anchor element it does nothing. *)
Theorem restoreScrollPosition_moves_only_without_anchor geometry dom sc a :
  (forall anchor,
      anchorElement a = Some anchor ->
      Dom.contains anchor dom = true ->
      Scrolling.restoreScrollPosition geometry dom sc (Some a) = sc)
  /\ (forall anchor,
        anchorElement a = Some anchor ->
        Dom.contains anchor dom = false ->
        position (Scrolling.restoreScrollPosition geometry dom sc (Some a))
        = scrollTop a)
  /\ (anchorElement a = None ->
      Scrolling.restoreScrollPosition geometry dom sc (Some a) = sc)
  /\ Scrolling.restoreScrollPosition geometry dom sc None = sc.
Proof.
  unfold Scrolling.restoreScrollPosition. repeat split.
  - intros anchor Ha Hc. rewrite Ha, Hc. cbn [negb]. cbv zeta.
    set (x := rectTop geometry anchor + position sc - anchorOffset a
              - (position sc + rectTop geometry anchor - anchorOffset a)).
    assert (Hx : x == 0) by (unfold x; ring).
    destruct (Monitor.Qlt_bool 5 (Qabs x)) eqn:E; [|reflexivity].
    apply Qlt_bool_iff in E. rewrite Hx in E. discriminate.
  - intros anchor Ha Hc. now rewrite Ha, Hc.
  - intros Ha. now rewrite Ha.
Qed.

Lemma restoreScrollPosition_moves_only_without_anchor_witness :
  Scrolling.restoreScrollPosition Cases.rowGeometry Sample.blockDom
    (mkScroll 460 3000 800) (Some Sample.rowAnchor)
  = mkScroll 460 3000 800
  /\ position (Scrolling.restoreScrollPosition Cases.rowGeometry Sample.emptyDom
                 (mkScroll 460 3000 800) (Some (mkAnchor 500 (Some 12%nat) 0)))
     = 500.
Proof.
  destruct (restoreScrollPosition_moves_only_without_anchor Cases.rowGeometry
              Sample.blockDom (mkScroll 460 3000 800) Sample.rowAnchor)
    as (Hkeep & _).
  destruct (restoreScrollPosition_moves_only_without_anchor Cases.rowGeometry
              Sample.emptyDom (mkScroll 460 3000 800) (mkAnchor 500 (Some 12%nat) 0))
    as (_ & Hlost & _).
  split.
  - apply (Hkeep 10%nat); reflexivity.
  - apply (Hlost 12%nat); reflexivity.
Defined.

Lemma find_first {A} (f : A -> bool) (l : list A) x :
  find f l = Some x -> f x = true /\ In x l.
Proof.
  induction l as [|a l IH]; [discriminate|]. simpl.
  destruct (f a) eqn:E.
  - intros H. injection H as <-. split; [exact E|now left].
  - intros H. destruct (IH H). split; [assumption|now right].
Qed.

(** X21.  What [captureScrollAnchor] records.  Without a scroll
    container there is no anchor.  Otherwise the stored offset is the
    current scroll offset, and the anchor element is: a row of the list
    that holds the target point, with an offset between 0 and the height of
    the row; or else an element under the target point that is taller than
    10px, is not the scroll container and is not a styled container; or
    none. *)
Theorem captured_anchor_is_stable geometry vp items hits a :
  Scrolling.captureScrollAnchor geometry (Some vp) items hits = Some a ->
  scrollTop a = vpScrollTop vp
  /\ ((exists item,
          anchorElement a = Some item /\ In item items
          /\ 0 <= anchorOffset a <= rectHeight geometry item)
      \/ (exists el,
            anchorElement a = Some (hitId el) /\ In el hits
            /\ 10 < hitOffsetHeight el
            /\ hitIsScrollContainer el = false
            /\ ~ In "think-inside-box-container" (hitClassList el)
            /\ find (Scrolling.rowHoldsTarget geometry (vpScrollTop vp)
                       (vpScrollTop vp + Scrolling.viewportHeight vp * (3 # 10)))
                 items = None)
      \/ (anchorElement a = None /\ anchorOffset a = 0)).
Proof.
  unfold Scrolling.captureScrollAnchor.
  destruct (find (Scrolling.rowHoldsTarget geometry (vpScrollTop vp) _) items)
    as [item|] eqn:Erow.
  - intros H. injection H as <-. split; [reflexivity|]. left.
    apply find_first in Erow as [Hrow Hin]. exists item. simpl.
    split; [reflexivity|]. split; [exact Hin|].
    unfold Scrolling.rowHoldsTarget in Hrow.
    apply andb_true_iff in Hrow as [H1 H2].
    apply Qle_bool_iff in H1, H2. split; lra.
  - destruct (find Scrolling.usableHit hits) as [el|] eqn:Ehit.
    + intros H. injection H as <-. split; [reflexivity|]. right. left.
      apply find_first in Ehit as [Hhit Hin]. exists el. simpl.
      unfold Scrolling.usableHit in Hhit.
      apply andb_true_iff in Hhit as [Hhit Hclass].
      apply andb_true_iff in Hhit as [Htall Hsc].
      apply Qlt_bool_iff in Htall. apply negb_true_iff in Hsc, Hclass.
      repeat split; try assumption; try reflexivity.
      intros Hc.
      assert (Hin' : existsb (String.eqb "think-inside-box-container") (hitClassList el)
                     = true).
      { apply existsb_exists. exists "think-inside-box-container".
        split; [exact Hc|apply String.eqb_refl]. }
      congruence.
    + intros H. injection H as <-. split; [reflexivity|]. right. right. now split.
Qed.

Lemma captured_anchor_is_stable_witness :
  exists a,
    Scrolling.captureScrollAnchor Cases.rowGeometry (Some Cases.viewport)
      [10%nat; 20%nat] Cases.hits = Some a
    /\ anchorElement a = Some 10%nat
    /\ 0 <= anchorOffset a <= 600.
Proof.
  eexists. split; [reflexivity|]. split; [reflexivity|].
  destruct (captured_anchor_is_stable Cases.rowGeometry Cases.viewport
              [10%nat; 20%nat] Cases.hits _ eq_refl)
    as (_ & [(item & Hi & _ & Hb)|[(el & He & _)|[Hn _]]]).
  - simpl in Hi. injection Hi as <-. exact Hb.
  - split; discriminate.
  - discriminate Hn.
Defined.

End Compensation.

(** ** What starts a pass *)

Lemma raw_tag_node_is_not_relevant node :
  showsRawTag node -> Events.containsThinkingMarkers node = false.
Proof.
  destruct node as [text|text|]; simpl; [| |reflexivity];
    intros [H|H];
    now rewrite !(raw_tag_has_no_escaped_literal _ _ _ H eq_refl).
Qed.

(** X22.  The mutation filter and the detector disagree on the text of a
    marker: a batch of mutations whose added nodes and changed text nodes
    show the raw tags, which is the text the detector recognises a marker
    by, is not relevant for [processChanges], and no pass is started. *)
Theorem raw_tag_mutations_start_no_pass d s p layout captured mutations :
  Forall mutationShowsRawTags mutations ->
  Events.processChanges d s p layout captured mutations = None.
Proof.
  intros H. unfold Events.processChanges.
  assert (Hrel : Events.hasRelevantChanges mutations = false).
  { unfold Events.hasRelevantChanges. apply existsb_all_false.
    eapply Forall_impl; [exact H|]. intros m Hm.
    destruct m as [added|target|]; simpl in *; [|now apply raw_tag_node_is_not_relevant|reflexivity].
    apply existsb_all_false. eapply Forall_impl; [exact Hm|].
    apply raw_tag_node_is_not_relevant. }
  now rewrite Hrel.
Qed.

Lemma raw_tag_mutations_start_no_pass_witness :
  Detector.isStartMarker Detector.new Sample.startDiv = true
  /\ Events.processChanges Detector.new Styler.new (Sample.pageOf Sample.blockDom)
       Sample.layoutBefore None Cases.rawTagBatch = None.
Proof.
  split; [reflexivity|].
  apply (raw_tag_mutations_start_no_pass Detector.new Styler.new
           (Sample.pageOf Sample.blockDom) Sample.layoutBefore None Cases.rawTagBatch).
  constructor; [|constructor; [|constructor]].
  - constructor; [left; reflexivity|]. constructor; [right; reflexivity|constructor].
  - left. reflexivity.
Defined.

(** X23.  A scroll of at most 50px starts nothing.  A larger scroll runs a
    pass on a cleared processed set, so the pass takes every complete range
    of the page, also those whose styled container is still in place. *)
Theorem scroll_beyond_threshold_rescans_everything d s p layout captured current last :
  ((Qabs (current - last) <= 50)%Q ->
   Events.handleScroll d s p layout captured current last = None)
  /\ ((50 < Qabs (current - last))%Q ->
      exists pass,
        Events.handleScroll d s p layout captured current last = Some pass
        /\ Monitor.passRanges pass
           = fst (Detector.loop d ([], None) (Detector.candidates (dom p)))).
Proof.
  unfold Events.handleScroll. cbv zeta.
  destruct (Monitor.Qlt_bool 50 (Qabs (current - last))) eqn:E.
  - apply Qlt_bool_iff in E. split.
    + intros H. exfalso. apply (Qlt_not_le _ _ E H).
    + intros _. eexists. split; [reflexivity|].
      destruct (pass_shape (Detector.clearProcessedBlocks d) s p layout captured)
        as (Hr & _).
      rewrite Hr.
      destruct (scan_after_clear_aux (dom p) d) as [-> _]. reflexivity.
  - split; [reflexivity|]. intros H. apply Qlt_bool_iff in H. congruence.
Qed.

Lemma scroll_beyond_threshold_rescans_everything_witness :
  Events.handleScroll Sample.tracking Styler.new (Sample.pageOf Sample.rerenderedDom)
    Sample.layoutBefore None 530 500 = None
  /\ exists pass,
       Events.handleScroll Sample.tracking Styler.new (Sample.pageOf Sample.rerenderedDom)
         Sample.layoutBefore None 580 500 = Some pass
       /\ Monitor.passRanges pass = [Sample.emptyRange].
Proof.
  destruct (scroll_beyond_threshold_rescans_everything Sample.tracking Styler.new
              (Sample.pageOf Sample.rerenderedDom) Sample.layoutBefore None 530 500)
    as [Hsmall _].
  destruct (scroll_beyond_threshold_rescans_everything Sample.tracking Styler.new
              (Sample.pageOf Sample.rerenderedDom) Sample.layoutBefore None 580 500)
    as [_ Hlarge].
  split; [apply Hsmall; discriminate|].
  destruct Hlarge as (pass & Hpass & Hranges); [reflexivity|].
  exists pass. split; [exact Hpass|]. rewrite Hranges. reflexivity.
Defined.

(** X24.  A pass records every range it took: the fingerprint of each range
    the scan returned is in the processed set of the detector the pass
    leaves, whether or not the styler wrapped it.  With styling disabled the
    page is left as it was and the ranges are recorded all the same. *)
Theorem pass_records_every_range d s p layout captured r :
  let pass := Monitor.processCurrentContent d s p layout captured in
  In r (Monitor.passRanges pass) ->
  Detector.generateRangeKey r ∈ processedBlocks (Monitor.passDetector pass)
  /\ (enabled (settings s) = false -> Monitor.passPage pass = p).
Proof.
  intros pass.
  destruct (pass_shape d s p layout captured) as (Hranges & Hdet & Hpage & _).
  fold pass in Hranges, Hdet, Hpage. rewrite Hranges, Hdet. intros Hr. split.
  - apply markAll_processed. right. exists r. now split.
  - intros He. rewrite Hpage by (intros E; rewrite E in Hr; destruct Hr).
    unfold Styler.wrapThinkingBlocks. now rewrite He.
Qed.

Lemma pass_records_every_range_witness :
  let pass := Monitor.processCurrentContent Detector.new Sample.disabledStyler
                (Sample.pageOf Sample.blockDom) Sample.layoutBefore None in
  Monitor.passRanges pass = [Sample.blockRange]
  /\ Detector.generateRangeKey Sample.blockRange
     ∈ processedBlocks (Monitor.passDetector pass)
  /\ Monitor.passPage pass = Sample.pageOf Sample.blockDom.
Proof.
  split; [reflexivity|].
  destruct (pass_records_every_range Detector.new Sample.disabledStyler
              (Sample.pageOf Sample.blockDom) Sample.layoutBefore None Sample.blockRange)
    as [Hk Hp]; [now left|].
  split; [exact Hk|]. apply Hp. reflexivity.
Defined.
